(** * The concurrent page pipeline of the Qwen2.5-VL OCR front end

    A shallow embedding of [streamlit/app.py]: the capacity estimate that
    sizes the worker pool, [process_page], the rasterisation loop, the
    collection loop over completed futures, the per-file sort, and the
    processing guard on the session state.

    Conventions of the embedding.
    - Python values that the script only passes around (PIL images) are an
      abstract type [Page].
    - A Python exception is a value of [exn]; an expression that may raise
      has type [outcome A].  How [str(e)] renders an exception belongs to
      the interpreter and its libraries, so it is a parameter [str].
    - Everything the script reads from outside (the clock, the rasteriser,
      the PNG encoder, the HTTP backend, the order in which futures
      complete, NVML) is read from an explicit oracle record.
    - [time.time()] readings are integers (clock ticks); float rounding of
      the readings is not modelled. *)

From Stdlib Require Import Strings.Ascii Strings.String Strings.Byte QArith Qround.
From stdpp Require Import base tactics option list sorting strings pretty gmap fin_maps.

Local Open Scope Z_scope.
Local Open Scope string_scope.
Local Open Scope list_scope.

(** ** Python values *)

Definition bytes := list Byte.byte.
Definition Time := Z.

Local Set Warnings "-register-all".

(** What [json.loads] produces and what [json=payload] serialises. A
    [JDict] holds the items of a [dict] in insertion order. *)
Inductive json :=
| JNull
| JBool (b : bool)
| JInt (z : Z)
| JFloat (q : Q)
| JStr (s : string)
| JList (l : list json)
| JDict (items : list (string * json)).

(** The exceptions of a failed subscript carry what they were raised for,
    since their messages differ by it: the missing key, the list or string
    whose index is out of range, the value that does not take the key. *)
Inductive exn :=
| KeyError (key : json)
| IndexError (sequence : json)
| TypeError (operand key : json)
| JSONDecodeError
| Timeout
| ConnectionError
| NVMLError
| OtherException (what : string).

Inductive outcome (A : Type) :=
| Returns (a : A)
| Raises (e : exn).
Arguments Returns {A} a.
Arguments Raises {A} e.

(** Sequencing: the first exception raised ends the computation. *)
Global Instance outcome_ret : MRet outcome := λ A a, Returns a.
Global Instance outcome_bind : MBind outcome := λ A B k m,
  match m with
  | Returns a => k a
  | Raises e => Raises e
  end.

Definition returned {A} (m : outcome A) : bool :=
  match m with Returns _ => true | Raises _ => false end.

(** *** Subscripting *)

Fixpoint dict_get (k : string) (items : list (string * json)) : option json :=
  match items with
  | [] => None
  | (k', v) :: rest => if decide (k' = k) then Some v else dict_get k rest
  end.

(** [v[k]] for a string key. *)
Definition getitem_str (v : json) (k : string) : outcome json :=
  match v with
  | JDict items =>
      match dict_get k items with
      | Some x => Returns x
      | None => Raises (KeyError (JStr k))
      end
  | _ => Raises (TypeError v (JStr k))
  end.

(** [v[i]] for an integer index [i >= 0]. *)
Definition getitem_int (v : json) (i : nat) : outcome json :=
  match v with
  | JList l =>
      match l !! i with
      | Some x => Returns x
      | None => Raises (IndexError v)
      end
  | JStr s =>
      match String.get i s with
      | Some c => Returns (JStr (String c ""))
      | None => Raises (IndexError v)
      end
  | JDict _ => Raises (KeyError (JInt (Z.of_nat i)))
  | _ => Raises (TypeError v (JInt (Z.of_nat i)))
  end.

(** *** [base64.b64encode(...).decode("utf-8")] *)

Definition b64_alphabet : string :=
  "ABCDEFGHIJKLMNOPQRSTUVWXYZabcdefghijklmnopqrstuvwxyz0123456789+/".

Definition b64_char (n : N) : ascii :=
  default "="%char (String.get (N.to_nat n) b64_alphabet).

Fixpoint b64encode (data : bytes) : string :=
  match data with
  | [] => ""
  | [a] =>
      let x := Byte.to_N a in
      String (b64_char (N.shiftr x 2))
        (String (b64_char (N.shiftl (N.land x 3) 4)) "==")
  | [a; b] =>
      let x := Byte.to_N a in
      let y := Byte.to_N b in
      String (b64_char (N.shiftr x 2))
        (String (b64_char (N.lor (N.shiftl (N.land x 3) 4) (N.shiftr y 4)))
           (String (b64_char (N.shiftl (N.land y 15) 2)) "="))
  | a :: b :: c :: rest =>
      let x := Byte.to_N a in
      let y := Byte.to_N b in
      let z := Byte.to_N c in
      String (b64_char (N.shiftr x 2))
        (String (b64_char (N.lor (N.shiftl (N.land x 3) 4) (N.shiftr y 4)))
           (String (b64_char (N.lor (N.shiftl (N.land y 15) 2) (N.shiftr z 6)))
              (String (b64_char (N.land z 63)) (b64encode rest))))
  end.

(** ** The inference request *)

Definition VLLM_URL : string := "http://qwen-vlm:8000/v1/chat/completions".

Inductive method := GET | POST.

Record Request := {
  req_method : method;
  req_url : string;
  req_json : json;
  req_headers : list (string * string);
  req_timeout : Z                         (* seconds *)
}.

Record Response := {
  status_code : N;
  text : string;                          (* [response.text] *)
  json_body : outcome json                (* [response.json()] *)
}.

(** The [payload] dict of [process_page]. *)
Definition payload (img_b64 : string) : json :=
  JDict [
    ("model", JStr "Qwen/Qwen2.5-VL-3B-Instruct-AWQ");
    ("messages", JList [
       JDict [
         ("role", JStr "user");
         ("content", JList [
            JDict [("type", JStr "text");
                   ("text", JStr "Please extract all text from this image.")];
            JDict [("type", JStr "image_url");
                   ("image_url", JDict [("url", JStr ("data:image/png;base64," +:+ img_b64))])]
          ])
       ]
     ]);
    ("max_tokens", JInt 4096);
    ("temperature", JFloat 0)
  ].

(** [response.json()["choices"][0]["message"]["content"]] *)
Definition first_choice_content (r : Response) : outcome json :=
  body ← json_body r;
  choices ← getitem_str body "choices";
  choice ← getitem_int choices 0;
  message ← getitem_str choice "message";
  getitem_str message "content".

(** ** The capacity estimate (module level, [MAX_WORKERS]) *)

(** The outcomes of the NVML calls of one start of the script. The device
    count and the free memory are unsigned C integers. *)
Record Nvml := {
  nvmlInit : outcome unit;
  nvmlDeviceGetCount : outcome N;
  nvmlDeviceGetHandleByIndex : N → outcome N;
  nvmlDeviceGetMemoryInfo : N → outcome N;      (* the [free] field, in bytes *)
  nvmlShutdown : outcome unit
}.

(** The body of the [try]. [free_mem] is a float in the source; the
    quotient by a power of two and the floor division by 3 are exact on
    it, so it is a rational here. *)
Definition estimate_workers (nv : Nvml) : outcome Z :=
  _ ← nvmlInit nv;
  device_count ← nvmlDeviceGetCount nv;
  workers ←
    (if decide (0 < device_count)%N then
       handle ← nvmlDeviceGetHandleByIndex nv 0%N;
       free ← nvmlDeviceGetMemoryInfo nv handle;
       let free_mem := (inject_Z (Z.of_N free) / inject_Z (1024 ^ 3))%Q in
       mret (Z.min 4 (Z.max 1 (Qfloor (free_mem / inject_Z 3))))
     else mret 2);
  _ ← nvmlShutdown nv;
  mret workers.

Definition MAX_WORKERS (nv : Nvml) : Z :=
  match estimate_workers nv with
  | Returns workers => workers
  | Raises _ => 2
  end.

(** ** Completion order and sorting *)

(** [as_completed] yields every future once, in the order in which they
    finish. The order is taken from a list of choices: each choice picks
    one of the futures still pending (modulo their number). *)
Fixpoint as_completed {A} (choices : list nat) (n : nat) (pending : list A) : list A :=
  match n with
  | O => []
  | S n' =>
      let k := (hd O choices `mod` length pending)%nat in
      match pending !! k with
      | Some f => f :: as_completed (tl choices) n' (delete k pending)
      | None => []
      end
  end.

(** [l.sort(key=...)]: a stable sort on an integer key. *)
Fixpoint insert_by {A} (key : A → nat) (x : A) (l : list A) : list A :=
  match l with
  | [] => [x]
  | y :: rest =>
      if decide (key x ≤ key y)%nat then x :: l else y :: insert_by key x rest
  end.

Definition sort_by {A} (key : A → nat) (l : list A) : list A :=
  foldr (insert_by key) [] l.

Definition key_le {A} (key : A → nat) (x y : A) : Prop := (key x ≤ key y)%nat.

Section Pipeline.

Context {Page : Type}.

(** [str(e)] *)
Variable str : exn → string.

(** What one call of [process_page] reads from outside. *)
Record TaskWorld := {
  clock_start : Time;                     (* [time.time()] on entry *)
  save_png : Page → outcome bytes;        (* [page.save(buf, format="PNG"); buf.getvalue()] *)
  post : Request → outcome Response;      (* [requests.post(...)] *)
  clock_end : Time                        (* [time.time()] after the [try] *)
}.

(** The tuple [process_page] returns. *)
Record PageTuple := {
  pt_file_name : string;
  pt_page_idx : nat;
  pt_text : json;
  pt_page_time : Time;
  pt_img_b64 : string;
  pt_page : Page
}.

(** The requests that have gone out so far, oldest first. *)
Definition Wire : Type := list Request.

(** [requests.post(VLLM_URL, json=payload, headers=..., timeout=60)]: the
    request goes out, and the answer of the backend or the exception of
    the transport comes back. Nothing else puts a request on the wire. *)
Definition requests_post (tw : TaskWorld) (rq : Request) (wire : Wire)
    : Wire * outcome Response :=
  (wire ++ [rq], post tw rq).

(** The body of the [try] in [process_page]: the request and the
    extraction of the text. *)
Definition request_text (tw : TaskWorld) (rq : Request) (wire : Wire)
    : Wire * outcome json :=
  let sent := requests_post tw rq wire in
  (sent.1,
   response ← sent.2;
   if decide (status_code response = 200%N)
   then first_choice_content response
   else Returns (JStr ("Error: " +:+ pretty (status_code response) +:+ " - "
                       +:+ text response))).

Definition page_request (img_b64 : string) : Request :=
  {| req_method := POST;
     req_url := VLLM_URL;
     req_json := payload img_b64;
     req_headers := [("Content-Type", "application/json")];
     req_timeout := 60 |}.

(** [process_page(file_name, page, page_idx)], with the requests it has
    put on the wire. *)
Definition process_page (tw : TaskWorld) (file_name : string) (page : Page)
    (page_idx : nat) : list Request * outcome PageTuple :=
  let page_start_time := clock_start tw in
  match save_png tw page with
  | Raises e => ([], Raises e)
  | Returns img_bytes =>
      let img_b64 := b64encode img_bytes in
      let rq := page_request img_b64 in
      let exchange := request_text tw rq [] in
      let text :=
        match exchange.2 with
        | Returns t => t
        | Raises e => JStr ("Exception: " +:+ str e)
        end in
      let page_time := clock_end tw - page_start_time in
      (exchange.1, Returns {| pt_file_name := file_name; pt_page_idx := page_idx;
                        pt_text := text; pt_page_time := page_time;
                        pt_img_b64 := img_b64; pt_page := page |})
  end.

(** ** Session state *)

(** One entry of a [file_results] list. *)
Record PageResult := {
  pr_page : nat;
  pr_text : json;
  pr_page_time : Time;
  pr_img_b64 : string;
  pr_image : Page
}.

Record DebugInfo := {
  pdf_size : nat;
  page_count : nat
}.

(** What the upload widget hands to the script. *)
Record UploadedFile := {
  uf_name : string;                       (* [f.name] *)
  uf_read : bytes                         (* [f.read()] *)
}.

(** One entry of [st.session_state.uploaded_files]. *)
Record StoredFile := {
  name : string;
  data : bytes
}.

Record SessionState := {
  file_results : gmap string (list PageResult);
  file_times : gmap string Time;
  debug_info : gmap string DebugInfo;
  processed : bool;
  uploaded_files : list StoredFile
}.

(** The state after the [if ... not in st.session_state] block of a
    fresh session. *)
Definition init_state : SessionState :=
  {| file_results := ∅; file_times := ∅; debug_info := ∅;
     processed := false; uploaded_files := [] |}.

(** What the script shows. *)
Inductive Notice :=
| InfoBox (msg : string)                  (* [st.info] *)
| ProgressBar (done total : nat)          (* [progress_bar.progress(done / total)] *)
| ProgressText (msg : string)             (* [progress_text.text] *)
| Error (msg : string).                   (* [st.error] *)

Definition is_error (n : Notice) : bool :=
  match n with Error _ => true | _ => false end.

(** ** One run of the script *)

Record World := {
  nvml : Nvml;
  file_clock : nat → Time;                (* [time.time()] for the k-th stored file *)
  convert_from_bytes : nat → bytes → outcome (list Page);
                                          (* the k-th call, at [dpi=150] *)
  task : nat → TaskWorld;                 (* the j-th submitted work item *)
  completion : list nat                   (* the choices of [as_completed] *)
}.

Definition WorkItem : Type := string * Page * nat.

(** The variables of the rasterisation loop. *)
Record Gathered := {
  g_results : gmap string (list PageResult);
  g_times : gmap string Time;
  g_debug : gmap string DebugInfo;
  all_pages : list WorkItem;
  total_pages : nat;
  g_notices : list Notice
}.

Definition gather_start : Gathered :=
  {| g_results := ∅; g_times := ∅; g_debug := ∅;
     all_pages := []; total_pages := 0; g_notices := [] |}.

(** The body of [for uploaded_file in st.session_state.uploaded_files]. *)
Definition gather_file (w : World) (k : nat) (uploaded_file : StoredFile)
    (g : Gathered) : Gathered :=
  let file_name := name uploaded_file in
  let file_start_time := file_clock w k in
  match convert_from_bytes w k (data uploaded_file) with
  | Returns pages =>
      {| all_pages := all_pages g ++ imap (λ i page, (file_name, page, S i)) pages;
         total_pages := total_pages g + length pages;
         g_times := <[file_name := file_start_time]> (g_times g);
         g_results := <[file_name := []]> (g_results g);
         g_debug := <[file_name := {| pdf_size := length (data uploaded_file);
                                      page_count := length pages |}]> (g_debug g);
         g_notices := g_notices g |}
  | Raises e =>
      {| all_pages := all_pages g; total_pages := total_pages g;
         g_times := g_times g; g_results := g_results g; g_debug := g_debug g;
         g_notices := g_notices g ++
           [Error ("Failed to process " +:+ file_name +:+ ": " +:+ str e)] |}
  end.

Fixpoint gather_from (w : World) (k : nat) (files : list StoredFile)
    (g : Gathered) : Gathered :=
  match files with
  | [] => g
  | f :: rest => gather_from w (S k) rest (gather_file w k f g)
  end.

Definition gather (w : World) (files : list StoredFile) : Gathered :=
  gather_from w 0 files gather_start.

(** A submitted future with its entry of [future_to_page]. *)
Record Future := {
  fut_file_name : string;
  fut_page_idx : nat;
  fut_requests : list Request;
  fut_result : outcome PageTuple
}.

Definition submit (w : World) (j : nat) (item : WorkItem) : Future :=
  let '(file_name, page, page_idx) := item in
  let '(sent, res) := process_page (task w j) file_name page page_idx in
  {| fut_file_name := file_name; fut_page_idx := page_idx;
     fut_requests := sent; fut_result := res |}.

Definition submit_all (w : World) (items : list WorkItem) : list Future :=
  imap (submit w) items.

(** The variables of the collection loop. *)
Record Collected := {
  c_results : gmap string (list PageResult);
  processed_pages : nat;
  c_notices : list Notice
}.

Definition page_result (t : PageTuple) : PageResult :=
  {| pr_page := pt_page_idx t; pr_text := pt_text t;
     pr_page_time := pt_page_time t; pr_img_b64 := pt_img_b64 t;
     pr_image := pt_page t |}.

Definition page_error (file_name : string) (page_idx : nat) (e : exn) : Notice :=
  Error ("Failed to process " +:+ file_name +:+ " - Page " +:+ pretty page_idx
         +:+ ": " +:+ str e).

(** The body of [for future in as_completed(future_to_page)]. Appending
    to a list that is not in the dict is a [KeyError], handled like any
    other exception of the [try]. *)
Definition collect (total : nat) (c : Collected) (future : Future) : Collected :=
  match fut_result future with
  | Returns t =>
      let done := S (processed_pages c) in
      let shown := c_notices c ++
        [ProgressBar done total;
         ProgressText ("Processed " +:+ pretty done +:+ "/" +:+ pretty total +:+ " pages")] in
      match c_results c !! pt_file_name t with
      | Some l =>
          {| c_results := <[pt_file_name t := l ++ [page_result t]]> (c_results c);
             processed_pages := done; c_notices := shown |}
      | None =>
          {| c_results := c_results c; processed_pages := done;
             c_notices := shown ++
               [page_error (pt_file_name t) (pt_page_idx t)
                  (KeyError (JStr (pt_file_name t)))] |}
      end
  | Raises e =>
      {| c_results := c_results c; processed_pages := processed_pages c;
         c_notices := c_notices c ++
           [page_error (fut_file_name future) (fut_page_idx future) e] |}
  end.

(** The [with ThreadPoolExecutor(...)] block. *)
Definition dispatch (w : World) (g : Gathered) : Collected :=
  let futures := submit_all w (all_pages g) in
  foldl (collect (total_pages g))
    {| c_results := g_results g; processed_pages := 0; c_notices := [] |}
    (as_completed (completion w) (length futures) futures).

(** [if uploaded_files and not st.session_state.processed] *)
Definition guard (ss : SessionState) (uploads : list UploadedFile) : bool :=
  bool_decide (uploads ≠ []) && negb (processed ss).

(** The comparison of the uploaded names with the stored ones. *)
Definition store_uploads (ss : SessionState) (uploads : list UploadedFile)
    : list StoredFile :=
  if decide (uf_name <$> uploads ≠ name <$> uploaded_files ss)
  then (λ f, {| name := uf_name f; data := uf_read f |}) <$> uploads
  else uploaded_files ss.

(** One run of the script on the session state [ss] with the files
    [uploads] in the upload widget: the new session state and what was
    shown. *)
Definition script (w : World) (ss : SessionState) (uploads : list UploadedFile)
    : SessionState * list Notice :=
  if guard ss uploads then
    let stored := store_uploads ss uploads in
    let g := gather w stored in
    let opening := InfoBox "Processing PDFs in parallel..." :: g_notices g in
    if decide (all_pages g = []) then
      ({| file_results := g_results g; file_times := g_times g;
          debug_info := g_debug g; processed := processed ss;
          uploaded_files := stored |},
       opening ++ [ProgressText "Processing complete!"])
    else
      let c := dispatch w g in
      ({| file_results := sort_by pr_page <$> c_results c;
          file_times := g_times g; debug_info := g_debug g;
          processed := true; uploaded_files := stored |},
       opening ++
       [ProgressText ("Processing " +:+ pretty (total_pages g) +:+ " pages with "
                      +:+ pretty (MAX_WORKERS (nvml w)) +:+ " concurrent requests...")]
       ++ c_notices c ++ [ProgressText "Processing complete!"])
  else (ss, []).

(** ** Notions used in the statements *)

Definition item_name (item : WorkItem) : string := item.1.1.
Definition item_idx (item : WorkItem) : nat := item.2.

(** The work items of the k-th stored file. *)
Definition file_items (w : World) (k : nat) (f : StoredFile) : list WorkItem :=
  match convert_from_bytes w k (data f) with
  | Returns pages => imap (λ i page, (name f, page, S i)) pages
  | Raises _ => []
  end.


(** The work items submitted under the name [n]. *)
Definition named (n : string) (items : list WorkItem) : list WorkItem :=
  filter (λ item, item_name item = n) items.

(** What the rasterisation loop has recorded under the name [n]. *)
Definition view (n : string) (g : Gathered) :=
  (g_results g !! n, g_times g !! n, g_debug g !! n, named n (all_pages g)).

(** What the rasterisation loop keeps: every work item has a result
    list, all result lists are empty, and [total_pages] counts the work
    items. *)
Definition gathered_ok (g : Gathered) : Prop :=
  (∀ item, item ∈ all_pages g → is_Some (g_results g !! item_name item))
  ∧ (∀ n l, g_results g !! n = Some l → l = [])
  ∧ total_pages g = length (all_pages g).

(** A returned tuple carries the name and page number it was called with. *)
Definition fut_ok (fut : Future) : Prop :=
  ∀ t, fut_result fut = Returns t →
       pt_file_name t = fut_file_name fut ∧ pt_page_idx t = fut_page_idx fut.

Definition fut_named (n : string) (fut : Future) : Prop := fut_file_name fut = n.

Global Instance fut_named_dec n fut : Decision (fut_named n fut) :=
  decide (fut_file_name fut = n).

(** The entries that a list of completed futures appends under the
    name [n], in the order of the list. *)
Definition collected_for (n : string) (fs : list Future) : list PageResult :=
  omap (λ fut,
    match fut_result fut with
    | Returns t => if decide (pt_file_name t = n) then Some (page_result t) else None
    | Raises _ => None
    end) fs.

(** The number of [PageResult]s in all result lists. *)
Definition total_results (m : gmap string (list PageResult)) : nat :=
  map_fold (λ _ l acc, length l + acc)%nat 0%nat m.

Definition count_errors (notices : list Notice) : nat :=
  length (filter (λ x, is_error x) notices).

Definition count_returned (fs : list Future) : nat :=
  length (filter (λ fut, returned (fut_result fut)) fs).

Definition count_raised (fs : list Future) : nat :=
  length (filter (λ fut, negb (returned (fut_result fut))) fs).

(** The futures of a run, in submission order. *)
Definition run_futures (w : World) (ss : SessionState) (uploads : list UploadedFile)
    : list Future :=
  submit_all w (all_pages (gather w (store_uploads ss uploads))).

(** ** The display after the run *)

(** [str(v)] for a value formatted into an f-string. A [str] is itself;
    how the other values are rendered belongs to the interpreter. *)
Variable repr : json → string.

Definition fstr (v : json) : string :=
  match v with
  | JStr s => s
  | _ => repr v
  end.

(** The sum behind "Total pages" in the sidebar. *)
Definition sidebar_total_pages (ss : SessionState) : nat :=
  map_fold (λ _ info acc, page_count info + acc)%nat 0%nat (debug_info ss).

(** What the sidebar writes under [if st.session_state.file_results]. *)
Definition sidebar_summary (ss : SessionState) : list string :=
  if decide (file_results ss = ∅) then []
  else ["Total files: " +:+ pretty (size (file_results ss));
        "Total pages: " +:+ pretty (sidebar_total_pages ss)].

Definition newline : string := String (ascii_of_nat 10) "".

(** One entry of [all_results] in the processing summary. *)
Definition result_line (file_name : string) (result : PageResult) : string :=
  "File: " +:+ file_name +:+ " - Page " +:+ pretty (pr_page result)
  +:+ newline +:+ fstr (pr_text result).

(** The entries of [all_results] as pairs, before they are formatted.
    [keys] are the keys of [file_results] in the iteration order of the
    dict, which the finite map of the session state does not record; a
    key of the dict always has its list. *)
Definition result_entries (keys : list string) (ss : SessionState)
    : list (string * PageResult) :=
  keys ≫= (λ file_name,
    (λ result, (file_name, result)) <$> default [] (file_results ss !! file_name)).

Definition all_results (keys : list string) (ss : SessionState) : list string :=
  (λ e, result_line e.1 e.2) <$> result_entries keys ss.

(** The data of the "Download Combined OCR Text" button, when it is shown. *)
Definition combined_download (keys : list string) (ss : SessionState) : option string :=
  if decide (all_results keys ss = []) then None
  else Some (String.concat (newline +:+ newline) (all_results keys ss)).

(** The iteration order of the dicts after the rasterisation loop: a
    name takes its place when it is first assigned and keeps it when it
    is assigned again. *)
Fixpoint key_order_from (w : World) (k : nat) (files : list StoredFile)
    (keys : list string) : list string :=
  match files with
  | [] => keys
  | f :: rest =>
      key_order_from w (S k) rest
        (match convert_from_bytes w k (data f) with
         | Returns _ => if decide (name f ∈ keys) then keys else keys ++ [name f]
         | Raises _ => keys
         end)
  end.

Definition key_order (w : World) (files : list StoredFile) : list string :=
  key_order_from w 0 files [].

(** ** More notions used in the statements *)

(** The sum of the recorded page counts. *)
Definition pages_sum (m : gmap string DebugInfo) : nat :=
  map_fold (λ _ info acc, page_count info + acc)%nat 0%nat m.

(** The arguments of the [progress_bar.progress] calls, in order. *)
Definition progress_values (notices : list Notice) : list (nat * nat) :=
  omap (λ x, match x with ProgressBar done total => Some (done, total) | _ => None end)
       notices.

(** The outcomes of the [convert_from_bytes] calls of a run. *)
Definition conversions (w : World) (files : list StoredFile) : list (outcome (list Page)) :=
  imap (λ k f, convert_from_bytes w k (data f)) files.

Definition count_failed_files (w : World) (files : list StoredFile) : nat :=
  length (filter (λ o, negb (returned o)) (conversions w files)).

(** What a completed future adds to the combined export. *)
Definition entry_of (fut : Future) : option (string * PageResult) :=
  match fut_result fut with
  | Returns t => Some (pt_file_name t, page_result t)
  | Raises _ => None
  end.

(** Futures, or work items, that all carry the name [n]. *)
Definition block_of (n : string) (B : list Future) : Prop :=
  Forall (λ fut, fut_named n fut ∧ fut_ok fut) B.

Definition item_block (n : string) (B : list WorkItem) : Prop :=
  Forall (λ item, item_name item = n) B.

(** The same world with another completion order. *)
Definition with_completion (w : World) (choices : list nat) : World :=
  {| nvml := nvml w; file_clock := file_clock w;
     convert_from_bytes := convert_from_bytes w; task := task w;
     completion := choices |}.

End Pipeline.

(** The content field of the first choice of a response body. *)
Definition is_first_choice_content (body v : json) : Prop :=
  ∃ items choice others message,
    body = JDict items
    ∧ dict_get "choices" items = Some (JList (JDict choice :: others))
    ∧ dict_get "message" choice = Some (JDict message)
    ∧ dict_get "content" message = Some v.

(** HTTP success in the sense of the interface description: a 2xx status. *)
Definition http_success (status : N) : bool :=
  (200 <=? status)%N && (status <? 300)%N.

(** The request envelope in the words of the interface description. *)
Definition envelope (model instruction img_b64 : string) : json :=
  JDict [
    ("model", JStr model);
    ("messages", JList [
       JDict [("role", JStr "user");
              ("content", JList [
                 JDict [("type", JStr "text"); ("text", JStr instruction)];
                 JDict [("type", JStr "image_url");
                        ("image_url",
                         JDict [("url", JStr ("data:image/png;base64," +:+ img_b64))])]])]]);
    ("max_tokens", JInt 4096);
    ("temperature", JFloat 0)].

(** The capacity estimate in the words of the description:
    [min(4, max(1, floor(free_GB / 3)))], with [free_GB] the free bytes
    over [1024^3]. *)
Definition free_memory_estimate (free : N) : Z :=
  Z.min 4 (Z.max 1 (Z.of_N free / (3 * 1024 ^ 3))).

(** NVML answers every call, reports a device and [free] bytes of free
    memory on device 0. *)
Definition telemetry (nv : Nvml) (free : N) : Prop :=
  nvmlInit nv = Returns ()
  ∧ nvmlShutdown nv = Returns ()
  ∧ ∃ count handle,
      nvmlDeviceGetCount nv = Returns count ∧ (0 < count)%N
      ∧ nvmlDeviceGetHandleByIndex nv 0%N = Returns handle
      ∧ nvmlDeviceGetMemoryInfo nv handle = Returns free.

(** ** Sample inputs *)

(** A page image, given by what encoding it as PNG yields. *)
Definition SamplePage : Type := outcome bytes.

(** A rendering of exceptions. *)
Definition str_sample (e : exn) : string :=
  match e with
  | KeyError (JStr k) => "'" +:+ k +:+ "'"
  | KeyError _ => "0"
  | IndexError (JStr _) => "string index out of range"
  | IndexError _ => "list index out of range"
  | TypeError JNull _ => "'NoneType' object is not subscriptable"
  | TypeError (JBool _) _ => "'bool' object is not subscriptable"
  | TypeError (JInt _) _ => "'int' object is not subscriptable"
  | TypeError (JFloat _) _ => "'float' object is not subscriptable"
  | TypeError (JStr _) _ => "string indices must be integers, not 'str'"
  | TypeError (JList _) _ => "list indices must be integers or slices, not str"
  | TypeError (JDict _) _ => "unhashable type"
  | JSONDecodeError => "Expecting value: line 1 column 1 (char 0)"
  | Timeout => "Read timed out. (read timeout=60)"
  | ConnectionError => "Connection refused"
  | NVMLError => "NVML Shared Library Not Found"
  | OtherException what => what
  end.

Definition chat_completion (content : string) : json :=
  JDict [("choices",
          JList [JDict [("index", JInt 0);
                        ("message", JDict [("role", JStr "assistant");
                                           ("content", JStr content)])]])].

(** A backend that answers every request with the given status and a
    well-formed completion; the call takes 7 ticks. *)
Definition sample_task (status : N) : TaskWorld (Page:=SamplePage) :=
  {| clock_start := 10;
     save_png := λ page, page;
     post := λ _, Returns {| status_code := status; text := "body";
                            json_body := Returns (chat_completion "hello") |};
     clock_end := 17 |}.

(** A backend that does not answer in time. *)
Definition slow_task : TaskWorld (Page:=SamplePage) :=
  {| clock_start := 10;
     save_png := λ page, page;
     post := λ _, Raises Timeout;
     clock_end := 70 |}.

Definition no_gpu : Nvml :=
  {| nvmlInit := Raises NVMLError;
     nvmlDeviceGetCount := Raises NVMLError;
     nvmlDeviceGetHandleByIndex := λ _, Raises NVMLError;
     nvmlDeviceGetMemoryInfo := λ _, Raises NVMLError;
     nvmlShutdown := Raises NVMLError |}.

Definition gpu (free : N) : Nvml :=
  {| nvmlInit := Returns ();
     nvmlDeviceGetCount := Returns 1%N;
     nvmlDeviceGetHandleByIndex := λ _, Returns 0%N;
     nvmlDeviceGetMemoryInfo := λ _, Returns free;
     nvmlShutdown := Returns () |}.

Definition good_page : SamplePage := Returns ["P"%byte; "N"%byte; "G"%byte].
Definition bad_page : SamplePage := Raises (OtherException "cannot write mode F as PNG").

(** The rasteriser of the samples: the first byte of a file tells what
    [convert_from_bytes] does with it. *)
Definition sample_convert (d : bytes) : outcome (list SamplePage) :=
  match d with
  | "1"%byte :: _ => Returns [good_page]
  | "2"%byte :: _ => Returns [good_page; good_page]
  | "3"%byte :: _ => Returns [good_page; good_page; good_page]
  | "f"%byte :: _ => Returns [bad_page; good_page]
  | "e"%byte :: _ => Returns []
  | _ => Raises (OtherException "Unable to get page count.")
  end.

(** The k-th file starts at tick [t0 + k]; the backend answers 500 to
    the second submitted page and 200 to the others. *)
Definition sample_world (t0 : Z) (choices : list nat) : World (Page:=SamplePage) :=
  {| nvml := no_gpu;
     file_clock := λ k, t0 + Z.of_nat k;
     convert_from_bytes := λ _ d, sample_convert d;
     task := λ j, sample_task (if decide (j = 1%nat) then 500%N else 200%N);
     completion := choices |}.

Definition W : World (Page:=SamplePage) := sample_world 100 [2; 0; 1]%nat.
Definition W_later : World (Page:=SamplePage) := sample_world 200 [].

(** A fresh session. *)
Definition fresh : SessionState (Page:=SamplePage) := init_state.

(** The page numbers of the result list of a name. *)
Definition result_pages (ss : SessionState (Page:=SamplePage)) (n : string)
    : option (list nat) :=
  match file_results ss !! n with
  | Some results => Some (pr_page <$> results)
  | None => None
  end.

Definition upload (n : string) (d : bytes) : UploadedFile :=
  {| uf_name := n; uf_read := d |}.

(** One document of two pages; encoding its first page raises. *)
Definition faulty_upload : list UploadedFile := [upload "a.pdf" ["f"%byte]].

(** A document that does not parse, then one of three pages. *)
Definition mixed_upload : list UploadedFile :=
  [upload "bad.pdf" ["%"%byte]; upload "good.pdf" ["3"%byte]].

(** A document that does not parse, then one of two pages whose first
    page does not encode. *)
Definition mixed_faulty_upload : list UploadedFile :=
  [upload "bad.pdf" ["%"%byte]; upload "good.pdf" ["f"%byte]].

(** A single document that does not parse. *)
Definition bad_upload : list UploadedFile := [upload "bad.pdf" ["%"%byte]].

(** A single document without pages. *)
Definition empty_upload : list UploadedFile := [upload "empty.pdf" ["e"%byte]].

(** Two documents of the same name, of two and of three pages. *)
Definition same_name_upload : list UploadedFile :=
  [upload "a.pdf" ["2"%byte]; upload "a.pdf" ["3"%byte; "!"%byte]].


Definition first_upload : list UploadedFile := [upload "a.pdf" ["1"%byte]].
Definition second_upload : list UploadedFile := [upload "b.pdf" ["2"%byte]].

(** A backend that answers 200 with the given parsed body. *)
Definition odd_task (body : outcome json) : TaskWorld (Page:=SamplePage) :=
  {| clock_start := 10;
     save_png := λ page, page;
     post := λ _, Returns {| status_code := 200; text := "body"; json_body := body |};
     clock_end := 17 |}.

(** A rendering of the values that are not strings. *)
Definition repr_sample (v : json) : string := "<value>".

(** The document that did not parse, uploaded again under its name
    with other bytes. *)
Definition corrected_upload : list UploadedFile := [upload "bad.pdf" ["3"%byte]].

(** Two documents, the later name first in the alphabet. *)
Definition two_upload : list UploadedFile :=
  [upload "b.pdf" ["2"%byte]; upload "a.pdf" ["1"%byte]].

Definition GiB : N := (1024 ^ 3)%N.

(** * Properties *)

Section Lists.
Context {A : Type}.
Implicit Types l : list A.

Lemma as_completed_perm choices l : as_completed choices (length l) l ≡ₚ l.
Proof.
  remember (length l) as n eqn:Hn.
  revert choices l Hn. induction n as [|n IH]; intros choices l Hn; simpl.
  - symmetry in Hn. apply length_zero_iff_nil in Hn. by subst.
  - assert (Hk : (hd 0 choices `mod` length l < length l)%nat).
    { apply Nat.mod_upper_bound. lia. }
    destruct (lookup_lt_is_Some_2 _ _ Hk) as [f Hf]. rewrite Hf.
    etrans; [|symmetry; by apply delete_Permutation].
    constructor. apply IH. rewrite length_delete by eauto. lia.
Qed.

Lemma as_completed_any l order :
  order ≡ₚ l → ∃ choices, as_completed choices (length l) l = order.
Proof.
  revert l. induction order as [|x order IH]; intros l Hp.
  - apply Permutation_nil_l in Hp. subst. by exists [].
  - assert (Hx : x ∈ l) by (rewrite <- Hp; left).
    apply list_elem_of_lookup in Hx as [k Hk].
    assert (Hrest : order ≡ₚ delete k l).
    { apply (Permutation_cons_inv (a:=x)). rewrite Hp. by apply delete_Permutation. }
    destruct (IH _ Hrest) as [choices Hc].
    exists (k :: choices).
    pose proof (lookup_lt_Some _ _ _ Hk) as Hlt.
    destruct l as [|y l']; [simpl in Hlt; lia|].
    cbn [length as_completed hd tl].
    change (S (length l')) with (length (y :: l')).
    rewrite Nat.mod_small by done. rewrite Hk. f_equal.
    rewrite <- Hc. f_equal. rewrite length_delete by eauto. simpl. lia.
Qed.

Variable key : A → nat.

Lemma insert_by_perm x l : insert_by key x l ≡ₚ x :: l.
Proof.
  induction l as [|y l IH]; simpl; [done|].
  case_decide; [done|]. rewrite IH. apply perm_swap.
Qed.

Lemma sort_by_perm l : sort_by key l ≡ₚ l.
Proof.
  induction l as [|x l IH]; simpl; [done|].
  fold (sort_by key l). by rewrite insert_by_perm, IH.
Qed.

Lemma sort_by_length l : length (sort_by key l) = length l.
Proof. by rewrite sort_by_perm. Qed.

Lemma insert_by_sorted x l : Sorted (key_le key) l → Sorted (key_le key) (insert_by key x l).
Proof.
  induction 1 as [|y l Hs IH Hhd]; simpl.
  - repeat constructor.
  - case_decide as Hxy.
    + constructor; [by constructor|by constructor].
    + constructor; [done|].
      destruct Hhd as [|z l' Hyz]; simpl.
      * constructor. unfold key_le. lia.
      * case_decide; constructor; unfold key_le in *; lia.
Qed.

Lemma sort_by_sorted l : Sorted (key_le key) (sort_by key l).
Proof.
  induction l as [|x l IH]; simpl; [constructor|].
  by apply insert_by_sorted.
Qed.

Lemma increasing_sorted (ks : list nat) : StronglySorted lt ks → Sorted le ks.
Proof.
  intros Hks. apply StronglySorted_Sorted.
  induction Hks as [|k ks' _ IH Hall]; constructor; [done|].
  eapply Forall_impl; [done|]. intros; simpl in *; lia.
Qed.

(** Sorting a list whose keys are, in some order, a strictly increasing
    sequence yields that sequence. *)
Lemma sort_by_keys l (ks : list nat) :
  key <$> l ≡ₚ ks → StronglySorted lt ks → key <$> sort_by key l = ks.
Proof.
  intros Hp Hks.
  apply (Sorted_unique le).
  - apply (Sorted_fmap key (key_le key) le); [done|]. apply sort_by_sorted.
  - by apply increasing_sorted.
  - by rewrite sort_by_perm.
Qed.
Lemma StronglySorted_sublist (R : relation A) l1 l2 :
  l1 `sublist_of` l2 → StronglySorted R l2 → StronglySorted R l1.
Proof.
  induction 1 as [|x l1 l2 Hsub IH|x l1 l2 Hsub IH]; intros Hs.
  - constructor.
  - apply StronglySorted_inv in Hs as [Hs Hall]. constructor; [auto|].
    rewrite Forall_forall in Hall |- *. intros y Hy. apply Hall.
    by eapply elem_of_sublist.
  - apply StronglySorted_inv in Hs as [Hs _]. auto.
Qed.
End Lists.

Lemma seq_increasing s m : StronglySorted lt (seq s m).
Proof.
  revert s. induction m as [|m IH]; intros s; simpl; constructor; [apply IH|].
  apply Forall_forall. intros j Hj%elem_of_seq. lia.
Qed.

Section Properties.
Context {Page : Type} (str : exn → string).
Local Abbreviation World := (@World Page).
Local Abbreviation Gathered := (@Gathered Page).
Local Abbreviation WorkItem := (@WorkItem Page).
Local Abbreviation Future := (@Future Page).
Local Abbreviation Collected := (@Collected Page).
Local Abbreviation SessionState := (@SessionState Page).
Local Abbreviation PageResult := (@PageResult Page).
Implicit Types (w : World) (g : Gathered) (f : StoredFile) (files : list StoredFile).
Implicit Types (n : string) (k : nat).
Implicit Types (fut : Future) (fs : list Future) (item : WorkItem) (items : list WorkItem).

(** *** The rasterisation loop *)

Lemma gather_from_app w k l1 l2 g :
  gather_from str w k (l1 ++ l2) g
  = gather_from str w (k + length l1) l2 (gather_from str w k l1 g).
Proof.
  revert k g. induction l1 as [|f l1 IH]; intros k g; simpl.
  - by rewrite Nat.add_0_r.
  - rewrite IH. by replace (S k + length l1)%nat with (k + S (length l1))%nat by lia.
Qed.

Lemma gather_file_items w k f g :
  all_pages (gather_file str w k f g) = all_pages g ++ file_items w k f.
Proof.
  unfold gather_file, file_items.
  destruct (convert_from_bytes w k (data f)); simpl; [done|by rewrite app_nil_r].
Qed.

Lemma filter_all {A} (P : A → Prop) `{!∀ x, Decision (P x)} (l : list A) :
  Forall P l → filter P l = l.
Proof.
  induction 1 as [|x l HP _ IH]; [done|].
  rewrite filter_cons, decide_True by done. by rewrite IH.
Qed.

Lemma filter_none {A} (P : A → Prop) `{!∀ x, Decision (P x)} (l : list A) :
  Forall (λ x, ¬ P x) l → filter P l = [].
Proof.
  induction 1 as [|x l HP _ IH]; [done|].
  by rewrite filter_cons, decide_False.
Qed.

Lemma file_items_name w k f :
  Forall (λ item, item_name item = name f) (file_items w k f).
Proof.
  unfold file_items. destruct (convert_from_bytes w k (data f)) as [pages|]; [|done].
  apply Forall_forall. intros item Hin.
  apply elem_of_lookup_imap_1 in Hin as (i & page & -> & _). done.
Qed.

Lemma file_items_named w k f : named (name f) (file_items w k f) = file_items w k f.
Proof. apply filter_all, file_items_name. Qed.

Lemma file_items_other w k f n : name f ≠ n → named n (file_items w k f) = [].
Proof.
  intros Hne. apply filter_none.
  eapply Forall_impl; [apply file_items_name|]. simpl. congruence.
Qed.

Lemma file_items_idx w k f pages :
  convert_from_bytes w k (data f) = Returns pages →
  item_idx <$> file_items w k f = seq 1 (length pages).
Proof.
  intros Hc. unfold file_items. rewrite Hc.
  rewrite fmap_imap.
  rewrite (imap_ext _ (λ j _, S (0 + j))%nat) by done.
  rewrite (imap_seq pages S 0). by rewrite fmap_S_seq.
Qed.

Lemma gather_file_other w k f g n :
  name f ≠ n → view n (gather_file str w k f g) = view n g.
Proof.
  intros Hne. unfold view. rewrite gather_file_items.
  unfold named at 1. rewrite filter_app. fold (named n (all_pages g)).
  fold (named n (file_items w k f)). rewrite file_items_other, app_nil_r by done.
  unfold gather_file. destruct (convert_from_bytes w k (data f)); simpl; [|done].
  by rewrite !lookup_insert_ne.
Qed.

Lemma gather_from_other w k files g n :
  (∀ f, f ∈ files → name f ≠ n) →
  view n (gather_from str w k files g) = view n g.
Proof.
  revert k g. induction files as [|f files IH]; intros k g Hne; simpl; [done|].
  rewrite IH by (intros; apply Hne; by right).
  apply gather_file_other, Hne. by left.
Qed.

Lemma gather_file_returns w k f g pages :
  convert_from_bytes w k (data f) = Returns pages →
  view (name f) (gather_file str w k f g)
  = (Some [], Some (file_clock w k),
     Some {| pdf_size := length (data f); page_count := length pages |},
     named (name f) (all_pages g) ++ file_items w k f).
Proof.
  intros Hc. unfold view. rewrite gather_file_items.
  unfold named at 1. rewrite filter_app.
  fold (named (name f) (file_items w k f)). rewrite file_items_named.
  unfold gather_file. rewrite Hc. simpl. by rewrite !lookup_insert_eq.
Qed.


Lemma gather_from_notices w k files g :
  ∃ more, g_notices (gather_from str w k files g) = g_notices g ++ more.
Proof.
  revert k g. induction files as [|f files IH]; intros k g; simpl.
  - exists []. by rewrite app_nil_r.
  - destruct (IH (S k) (gather_file str w k f g)) as [more ->].
    unfold gather_file. destruct (convert_from_bytes w k (data f)); simpl; eauto.
    rewrite <- app_assoc. eauto.
Qed.

Lemma gather_file_ok w k f g : gathered_ok g → gathered_ok (gather_file str w k f g).
Proof.
  intros (Hdom & Hnil & Htot). unfold gathered_ok. rewrite gather_file_items.
  pose proof (file_items_name w k f) as Hnames. revert Hnames.
  unfold gather_file, file_items.
  destruct (convert_from_bytes w k (data f)) as [pages|e]; simpl; intros Hnames.
  - split_and!.
    + intros item [Hin|Hin]%elem_of_app.
      * destruct (decide (name f = item_name item)) as [->|Hne].
        -- rewrite lookup_insert_eq. eauto.
        -- rewrite lookup_insert_ne by done. auto.
      * rewrite Forall_forall in Hnames. rewrite (Hnames _ Hin).
        rewrite lookup_insert_eq. eauto.
    + intros n l. destruct (decide (name f = n)) as [->|Hne].
      * rewrite lookup_insert_eq. congruence.
      * rewrite lookup_insert_ne by done. apply Hnil.
    + rewrite length_app, length_imap. lia.
  - rewrite app_nil_r. done.
Qed.

Lemma gather_from_ok w k files g :
  gathered_ok g → gathered_ok (gather_from str w k files g).
Proof.
  revert k g. induction files as [|f files IH]; intros k g Hok; simpl; [done|].
  by apply IH, gather_file_ok.
Qed.

Lemma gather_ok w files : gathered_ok (gather str w files).
Proof.
  apply gather_from_ok. split_and!; simpl; [|done..].
  intros item Hin. by apply elem_of_nil in Hin.
Qed.

(** A file whose name no other stored file has. *)
Lemma gather_unique w files k f :
  NoDup (name <$> files) → files !! k = Some f →
  ∃ pre post g, files = pre ++ f :: post ∧ k = length pre
  ∧ view (name f) g = (None, None, None, [])
  ∧ g_notices g = g_notices (gather_from str w 0 pre gather_start)
  ∧ view (name f) (gather str w files) = view (name f) (gather_file str w k f g)
  ∧ ∃ more, g_notices (gather str w files) = g_notices (gather_file str w k f g) ++ more.
Proof.
  intros Hnd Hk.
  apply list_elem_of_split_length in Hk as (pre & post & -> & ->).
  rewrite fmap_app, fmap_cons in Hnd.
  apply NoDup_app in Hnd as (_ & Hpre & Hpost%NoDup_cons_1_1).
  exists pre, post, (gather_from str w 0 pre gather_start).
  split_and!; [done|done| |done| |].
  - rewrite gather_from_other; [done|].
    intros f' Hin Heq. apply (Hpre (name f)); [|by left].
    rewrite <- Heq. by apply list_elem_of_fmap_2.
  - unfold gather. rewrite gather_from_app. simpl.
    rewrite gather_from_other; [done|].
    intros f' Hin Heq. apply Hpost. rewrite <- Heq. by apply list_elem_of_fmap_2.
  - unfold gather. rewrite gather_from_app. simpl. apply gather_from_notices.
Qed.

(** *** Submitting *)

Lemma submit_spec w j (item : WorkItem) :
  fut_file_name (submit str w j item) = item_name item
  ∧ fut_page_idx (submit str w j item) = item_idx item
  ∧ fut_ok (submit str w j item)
  ∧ returned (fut_result (submit str w j item)) = returned (save_png (task w j) item.1.2).
Proof.
  destruct item as [[file_name page] page_idx].
  unfold submit, process_page, fut_ok, item_name, item_idx. simpl.
  destruct (save_png (task w j) page); simpl; split_and!; try done.
  by intros t [= <-].
Qed.

Lemma imap_futures n (F : nat → WorkItem → Future) (items : list WorkItem) :
  (∀ j item, fut_file_name (F j item) = item_name item
             ∧ fut_page_idx (F j item) = item_idx item ∧ fut_ok (F j item)) →
  Forall fut_ok (imap F items)
  ∧ fut_page_idx <$> filter (fut_named n) (imap F items) = item_idx <$> named n items.
Proof.
  revert F. induction items as [|item items IH]; intros F HF; [by split|].
  rewrite imap_cons. destruct (HF 0%nat item) as (Hname & Hidx & Hok).
  destruct (IH (F ∘ S)) as [IHok IHidx]; [intros; apply HF|].
  split; [by constructor|].
  unfold named. rewrite !filter_cons.
  destruct (decide (fut_named n (F 0%nat item))) as [H1|H1],
    (decide (item_name item = n)) as [H2|H2];
    unfold fut_named in H1; rewrite Hname in H1; try done;
    csimpl; rewrite ?Hidx; try f_equal; apply IHidx.
Qed.

Lemma submit_all_futures w n (items : list WorkItem) :
  Forall fut_ok (submit_all str w items)
  ∧ fut_page_idx <$> filter (fut_named n) (submit_all str w items)
    = item_idx <$> named n items.
Proof. apply imap_futures. intros j item. pose proof (submit_spec w j item). tauto. Qed.

(** *** The collection loop *)

Lemma collected_for_cons n fut fs :
  collected_for n (fut :: fs) = collected_for n [fut] ++ collected_for n fs.
Proof. unfold collected_for. simpl. by destruct (_ : option PageResult). Qed.

Lemma collect_lookup total (c : Collected) fut n :
  c_results (collect str total c fut) !! n
  = (λ l, l ++ collected_for n [fut]) <$> c_results c !! n.
Proof.
  assert (Hid : ∀ o : option (list PageResult), o = (λ l, l ++ []) <$> o).
  { intros [l|]; simpl; [by rewrite app_nil_r|done]. }
  unfold collect, collected_for. simpl.
  destruct (fut_result fut) as [t|e]; simpl; [|apply Hid].
  destruct (c_results c !! pt_file_name t) as [l|] eqn:Hl; simpl.
  - case_decide as Hn.
    + subst n. by rewrite lookup_insert_eq, Hl.
    + rewrite lookup_insert_ne by done. apply Hid.
  - case_decide as Hn; [|apply Hid]. subst n. by rewrite Hl.
Qed.

Lemma collect_all_lookup total fs (c : Collected) n :
  c_results (foldl (collect str total) c fs) !! n
  = (λ l, l ++ collected_for n fs) <$> c_results c !! n.
Proof.
  revert c. induction fs as [|fut fs IH]; intros c; cbn [foldl].
  - destruct (c_results c !! n); simpl; [by rewrite app_nil_r|done].
  - rewrite IH, collect_lookup, (collected_for_cons n fut fs).
    destruct (c_results c !! n); simpl; [by rewrite app_assoc|done].
Qed.

Lemma collected_for_perm n (fs1 fs2 : list Future) :
  fs1 ≡ₚ fs2 → collected_for n fs1 ≡ₚ collected_for n fs2.
Proof. intros Hp. unfold collected_for. by rewrite Hp. Qed.

Lemma collected_for_pages n (fs : list Future) :
  Forall fut_ok fs →
  (pr_page <$> collected_for n fs) `sublist_of` (fut_page_idx <$> filter (fut_named n) fs)
  ∧ ((∀ fut, fut ∈ fs → fut_named n fut → returned (fut_result fut) = true) →
     pr_page <$> collected_for n fs = fut_page_idx <$> filter (fut_named n) fs).
Proof.
  induction 1 as [|fut fs Hok _ [IHsub IHall]]; [by split|].
  rewrite collected_for_cons, fmap_app, filter_cons.
  assert (Hrest : (∀ fut', fut' ∈ fut :: fs → fut_named n fut' →
                           returned (fut_result fut') = true) →
                  pr_page <$> collected_for n fs
                  = fut_page_idx <$> filter (fut_named n) fs).
  { intros Hret. apply IHall. intros; apply Hret; [by right|done]. }
  unfold collected_for at 1 3. simpl.
  destruct (decide (fut_named n fut)) as [Hn|Hn];
    destruct (fut_result fut) as [t|e] eqn:Hres; simpl.
  - destruct (Hok t Hres) as [Hname Hidx].
    rewrite decide_True by (by rewrite Hname). simpl. rewrite Hidx.
    split; [by constructor|]. intros Hret. f_equal. by apply Hrest.
  - split; [by constructor|].
    intros Hret. specialize (Hret fut). rewrite Hres in Hret.
    discriminate Hret; [by left|done].
  - destruct (Hok t Hres) as [Hname Hidx].
    rewrite decide_False by (by rewrite Hname). simpl. by split.
  - by split.
Qed.

(** *** Counting results *)

Lemma total_results_insert (m : gmap string (list PageResult)) n l :
  m !! n = None → total_results (<[n:=l]> m) = (length l + total_results m)%nat.
Proof.
  intros Hn. unfold total_results.
  rewrite map_fold_insert_L; [done| |done]. intros; lia.
Qed.

Lemma total_results_replace (m : gmap string (list PageResult)) n l l' :
  m !! n = Some l →
  (total_results (<[n:=l']> m) + length l = total_results m + length l')%nat.
Proof.
  intros Hn.
  rewrite <- (insert_delete_id m n l) at 2 by done.
  rewrite <- (insert_delete_eq m n l').
  rewrite !total_results_insert by apply lookup_delete_eq. lia.
Qed.

Lemma total_results_fmap (g : list PageResult → list PageResult)
    (m : gmap string (list PageResult)) :
  (∀ l, length (g l) = length l) → total_results (g <$> m) = total_results m.
Proof.
  intros Hg. induction m as [|n l m Hn IH] using map_ind.
  - by rewrite fmap_empty.
  - rewrite fmap_insert, !total_results_insert, Hg, IH; [done..|].
    by rewrite lookup_fmap, Hn.
Qed.

Lemma total_results_nil (m : gmap string (list PageResult)) :
  (∀ n l, m !! n = Some l → l = []) → total_results m = 0%nat.
Proof.
  induction m as [|n l m Hn IH] using map_ind; intros Hnil; [done|].
  rewrite total_results_insert by done.
  rewrite (Hnil n l) by apply lookup_insert_eq. simpl. apply IH.
  intros n' l' Hl'. apply (Hnil n'). rewrite lookup_insert_ne; [done|].
  intros ->. congruence.
Qed.

Lemma count_errors_app l1 l2 : count_errors (l1 ++ l2) = (count_errors l1 + count_errors l2)%nat.
Proof. unfold count_errors. by rewrite filter_app, length_app. Qed.

Lemma collect_counts total (fs : list Future) (c : Collected) :
  Forall fut_ok fs →
  (∀ fut, fut ∈ fs → is_Some (c_results c !! fut_file_name fut)) →
  let c' := foldl (collect str total) c fs in
  total_results (c_results c') = (total_results (c_results c) + count_returned fs)%nat
  ∧ processed_pages c' = (processed_pages c + count_returned fs)%nat
  ∧ count_errors (c_notices c') = (count_errors (c_notices c) + count_raised fs)%nat.
Proof.
  intros Hok. revert c. induction Hok as [|fut fs Hfut _ IH]; intros c Hdom; simpl.
  { unfold count_returned, count_raised. simpl. lia. }
  destruct (IH (collect str total c fut)) as (IH1 & IH2 & IH3).
  { intros fut' Hin. rewrite collect_lookup.
    destruct (Hdom fut') as [l ->]; [by right|]. simpl. eauto. }
  rewrite IH1, IH2, IH3. clear IH IH1 IH2 IH3.
  unfold count_returned, count_raised. rewrite !filter_cons.
  destruct (Hdom fut) as [l Hl]; [by left|].
  unfold collect. destruct (fut_result fut) as [t|e] eqn:Hres; simpl.
  - destruct (Hfut t Hres) as [Hname _]. rewrite Hname, Hl. simpl.
    pose proof (total_results_replace (c_results c) (fut_file_name fut) l
                  (l ++ [page_result t]) Hl) as Hrep.
    rewrite length_app in Hrep. simpl in Hrep.
    rewrite !count_errors_app. unfold count_errors at 2. simpl. lia.
  - rewrite !count_errors_app. unfold count_errors at 2. simpl. lia.
Qed.

(** *** One run *)

Lemma script_processed w (ss : SessionState) uploads :
  processed ss = true → script str w ss uploads = (ss, []).
Proof.
  intros Hp. unfold script, guard. rewrite Hp.
  by rewrite andb_false_r.
Qed.

Lemma script_state w (ss : SessionState) uploads :
  guard ss uploads = true →
  let g := gather str w (store_uploads ss uploads) in
  let r := script str w ss uploads in
  file_results r.1
    = (if decide (all_pages g = []) then g_results g
       else sort_by pr_page <$> c_results (dispatch str w g))
  ∧ file_times r.1 = g_times g
  ∧ debug_info r.1 = g_debug g
  ∧ uploaded_files r.1 = store_uploads ss uploads
  ∧ processed r.1 = bool_decide (all_pages g ≠ [])
  ∧ (∀ x, x ∈ g_notices g → x ∈ r.2).
Proof.
  intros Hg. unfold script. rewrite Hg. simpl.
  assert (processed ss = false) as Hp.
  { unfold guard in Hg. apply andb_true_iff in Hg as [_ Hg]. by destruct (processed ss). }
  destruct (decide (all_pages _ = [])) as [Hnil|Hne]; simpl.
  - split_and!; try done.
    + rewrite Hp. symmetry. by apply bool_decide_eq_false_2; intros ?.
    + intros x Hx. right. apply elem_of_app. by left.
  - split_and!; try done.
    + symmetry. by apply bool_decide_eq_true_2.
    + intros x Hx. right. apply elem_of_app. by left.
Qed.

(** The result list of one name after a run: the entries collected
    under it, sorted by page. *)
Lemma script_results w (ss : SessionState) uploads n :
  guard ss uploads = true →
  let g := gather str w (store_uploads ss uploads) in
  (g_results g !! n = None →
   file_results (script str w ss uploads).1 !! n = None)
  ∧ (g_results g !! n = Some [] →
     ∃ results,
       file_results (script str w ss uploads).1 !! n = Some results
       ∧ Sorted le (pr_page <$> results)
       ∧ results ≡ₚ collected_for n (run_futures str w ss uploads)).
Proof.
  intros Hg g. destruct (script_state w ss uploads Hg) as (Hres & _).
  fold g in Hres. rewrite Hres. clear Hres.
  unfold run_futures. fold g.
  destruct (decide (all_pages g = [])) as [Hnil|Hne].
  - split; [done|]. intros Hn. exists []. rewrite Hnil. by repeat constructor.
  - rewrite lookup_fmap. unfold dispatch. rewrite collect_all_lookup. simpl.
    split; [by intros ->|]. intros ->. simpl. eexists. split; [done|]. split.
    + apply (Sorted_fmap pr_page (key_le pr_page) le); [done|]. apply sort_by_sorted.
    + rewrite sort_by_perm. apply collected_for_perm, as_completed_perm.
Qed.







Lemma count_split (fs : list Future) :
  (count_returned fs + count_raised fs = length fs)%nat.
Proof.
  unfold count_returned, count_raised.
  induction fs as [|fut fs IH]; [done|].
  rewrite !filter_cons. destruct (returned (fut_result fut)); simpl in *; lia.
Qed.

Lemma count_perm (fs1 fs2 : list Future) :
  fs1 ≡ₚ fs2 →
  count_returned fs1 = count_returned fs2 ∧ count_raised fs1 = count_raised fs2.
Proof. intros Hp. unfold count_returned, count_raised. by rewrite Hp. Qed.

Lemma dispatch_counts w g :
  gathered_ok g →
  let futures := submit_all str w (all_pages g) in
  total_results (c_results (dispatch str w g)) = count_returned futures
  ∧ processed_pages (dispatch str w g) = count_returned futures
  ∧ count_errors (c_notices (dispatch str w g)) = count_raised futures.
Proof.
  intros (Hdom & Hnil & _) futures. unfold dispatch. fold futures.
  pose proof (as_completed_perm (completion w) futures) as Hp.
  destruct (submit_all_futures w "" (all_pages g)) as [Hok _]. fold futures in Hok.
  destruct (collect_counts (total_pages g)
              (as_completed (completion w) (length futures) futures)
              {| c_results := g_results g; processed_pages := 0; c_notices := [] |})
    as (C1 & C2 & C3).
  - by rewrite Hp.
  - simpl. intros fut Hin. rewrite Hp in Hin.
    apply elem_of_lookup_imap_1 in Hin as (j & item & -> & Hitem).
    destruct (submit_spec w j item) as (-> & _). apply Hdom.
    by eapply list_elem_of_lookup_2.
  - destruct (count_perm _ _ Hp) as [Hret Hrai].
    simpl in C1, C2, C3. rewrite (total_results_nil _ Hnil) in C1.
    rewrite Hret in C1, C2. rewrite Hrai in C3. done.
Qed.

(** C1 (amended). Every submitted work item is accounted for exactly
    once: by a [PageResult] when its [process_page] call returned, by a
    page-level error notice and no [PageResult] when the call raised. So
    the number of [PageResult]s of a run is the number of calls that
    returned, and together with the number of page-level error notices it
    is the number of work items. *)
Theorem results_and_errors_count_work_items w (ss : SessionState) uploads :
  guard ss uploads = true →
  let g := gather str w (store_uploads ss uploads) in
  let futures := run_futures str w ss uploads in
  total_results (file_results (script str w ss uploads).1) = count_returned futures
  ∧ count_errors (c_notices (dispatch str w g)) = count_raised futures
  ∧ (total_results (file_results (script str w ss uploads).1)
     + count_errors (c_notices (dispatch str w g)) = length (all_pages g))%nat.
Proof.
  intros Hg g futures.
  pose proof (gather_ok w (store_uploads ss uploads)) as Hok. fold g in Hok.
  destruct (dispatch_counts w g Hok) as (C1 & _ & C3).
  fold (run_futures str w ss uploads) in C1, C3. fold futures in C1, C3.
  assert (Hlen : length futures = length (all_pages g)).
  { unfold futures, run_futures, submit_all. by rewrite length_imap. }
  assert (Htotal : total_results (file_results (script str w ss uploads).1)
                   = count_returned futures).
  { destruct (script_state w ss uploads Hg) as (-> & _). fold g.
    destruct (decide (all_pages g = [])) as [Hnil|Hne].
    - destruct Hok as (_ & Hempty & _). rewrite (total_results_nil _ Hempty).
      unfold futures, run_futures. fold g. by rewrite Hnil.
    - rewrite total_results_fmap; [done|]. apply sort_by_length. }
  split_and!; [done..|].
  rewrite Htotal, C3, <- Hlen. apply count_split.
Qed.

(** *** Stored documents of one name *)














(** C6 (amended). After a run that dispatched at least one page, and so
    set the processed flag, a further run with the same document names in
    the upload widget does nothing: it shows nothing and leaves the
    session state, with its results, timings and debug info, as it is. *)
Theorem rerun_after_dispatch_is_noop w1 w2 (ss : SessionState) uploads uploads' :
  guard ss uploads = true →
  all_pages (gather str w1 (store_uploads ss uploads)) ≠ [] →
  uf_name <$> uploads' = uf_name <$> uploads →
  script str w2 (script str w1 ss uploads).1 uploads'
  = ((script str w1 ss uploads).1, []).
Proof.
  intros Hg Hpages _. apply script_processed.
  destruct (script_state w1 ss uploads Hg) as (_ & _ & _ & _ & -> & _).
  by apply bool_decide_eq_true_2.
Qed.

(** *** [process_page] *)

Lemma first_choice_content_spec (r : Response) body v :
  json_body r = Returns body → is_first_choice_content body v →
  first_choice_content r = Returns v.
Proof.
  intros Hb (items & choice & others & message & -> & H1 & H2 & H3).
  unfold first_choice_content. rewrite Hb. simpl. rewrite H1. simpl.
  rewrite H2. simpl. by rewrite H3.
Qed.

(** C8 (amended). What [process_page] puts on the wire, for every page.
    When the page encodes to PNG, it is exactly one request, whatever the
    backend answers: a POST to the chat completions URL with a 60 second
    timeout and the JSON content type, whose JSON body is the envelope
    with one user message made of the fixed instruction text and the
    base64 of the PNG as an inline data URL, [max_tokens] 4096 and
    [temperature] 0.0. When the encoding raises, which happens before the
    request is built, nothing is sent and the call raises. *)
Theorem process_page_sends_one_request (tw : TaskWorld) file_name (page : Page)
    page_idx :
  match save_png tw page with
  | Returns img_bytes =>
      (process_page str tw file_name page page_idx).1
      = [{| req_method := POST;
            req_url := "http://qwen-vlm:8000/v1/chat/completions";
            req_json := envelope "Qwen/Qwen2.5-VL-3B-Instruct-AWQ"
                          "Please extract all text from this image."
                          (b64encode img_bytes);
            req_headers := [("Content-Type", "application/json")];
            req_timeout := 60 |}]
  | Raises e =>
      process_page str tw file_name page page_idx = ([], Raises e)
  end.
Proof.
  unfold process_page. destruct (save_png tw page) as [img_bytes|e]; [|done].
  cbn [fst]. unfold request_text. cbn [fst]. unfold requests_post. cbn [fst].
  reflexivity.
Qed.

(** C3 (amended). For a page that encodes to PNG, [process_page] never
    raises. On status 200 its text is the content field of the first
    choice of the response body; on any other status, the other 2xx
    included, it is the error text made of the status and the response
    text; when the request raises, or the body of a 200 response is
    malformed or lacks the field, it is the exception text. The elapsed
    time is the difference of the two clock readings. *)
Theorem process_page_text (tw : TaskWorld) file_name (page : Page) page_idx img_bytes :
  save_png tw page = Returns img_bytes →
  ∃ t,
    (process_page str tw file_name page page_idx).2 = Returns t
    ∧ pt_file_name t = file_name
    ∧ pt_page_idx t = page_idx
    ∧ pt_page_time t = clock_end tw - clock_start tw
    ∧ match post tw (page_request (b64encode img_bytes)) with
      | Returns r =>
          (status_code r = 200%N → ∀ body v,
             json_body r = Returns body → is_first_choice_content body v →
             pt_text t = v)
          ∧ (status_code r = 200%N → ∀ e,
               json_body r = Raises e → pt_text t = JStr ("Exception: " +:+ str e))
          ∧ (status_code r = 200%N → ∀ e,
               first_choice_content r = Raises e →
               pt_text t = JStr ("Exception: " +:+ str e))
          ∧ (status_code r ≠ 200%N →
             pt_text t = JStr ("Error: " +:+ pretty (status_code r) +:+ " - " +:+ text r))
      | Raises e => pt_text t = JStr ("Exception: " +:+ str e)
      end.
Proof.
  intros Hsave. unfold process_page. rewrite Hsave. simpl.
  eexists. split; [done|]. simpl. split_and!; [done..|].
  unfold request_text.
  destruct (post tw (page_request (b64encode img_bytes))) as [r|e]; simpl; [|done].
  split_and!.
  - intros H200 body v Hb Hv. rewrite decide_True by done.
    by rewrite (first_choice_content_spec r body v Hb Hv).
  - intros H200 e Hb. rewrite decide_True by done.
    unfold first_choice_content. by rewrite Hb.
  - intros H200 e He. rewrite decide_True by done. by rewrite He.
  - intros Hn. by rewrite decide_False.
Qed.

End Properties.

(** ** The capacity estimate *)

Lemma floor_free_mem (free : Z) :
  Qfloor ((inject_Z free / inject_Z (1024 ^ 3)) / inject_Z 3)%Q = free / (3 * 1024 ^ 3).
Proof.
  change (1024 ^ 3) with 1073741824.
  unfold Qdiv, Qmult, Qinv, inject_Z, Qfloor. simpl.
  by rewrite !Z.mul_1_r.
Qed.

Lemma estimate_workers_range nv workers :
  estimate_workers nv = Returns workers → (1 ≤ workers ≤ 4)%Z.
Proof.
  unfold estimate_workers.
  destruct (nvmlInit nv); simpl; [|done].
  destruct (nvmlDeviceGetCount nv) as [count|]; simpl; [|done].
  case_decide; simpl.
  - destruct (nvmlDeviceGetHandleByIndex nv 0) as [h|]; simpl; [|done].
    destruct (nvmlDeviceGetMemoryInfo nv h) as [free|]; simpl; [|done].
    destruct (nvmlShutdown nv); simpl; [|done]. intros [= <-]. lia.
  - destruct (nvmlShutdown nv); simpl; [|done]. intros [= <-]. lia.
Qed.

(** C4. [MAX_WORKERS] is always an integer of [1..4]. When every NVML
    call returns and there is a device, it is the free-memory estimate
    [min(4, max(1, floor(free_GB / 3)))]; when there is no device, or any
    NVML call raises, it is 2, and nothing is raised. *)
Theorem max_workers_estimate (nv : Nvml) :
  (1 ≤ MAX_WORKERS nv ≤ 4)%Z
  ∧ (∀ count handle free,
       nvmlInit nv = Returns () →
       nvmlDeviceGetCount nv = Returns count → (0 < count)%N →
       nvmlDeviceGetHandleByIndex nv 0 = Returns handle →
       nvmlDeviceGetMemoryInfo nv handle = Returns free →
       nvmlShutdown nv = Returns () →
       MAX_WORKERS nv = free_memory_estimate free)
  ∧ (nvmlDeviceGetCount nv = Returns 0%N → MAX_WORKERS nv = 2)
  ∧ (∀ e, estimate_workers nv = Raises e → MAX_WORKERS nv = 2)
  ∧ (∀ e, nvmlInit nv = Raises e → MAX_WORKERS nv = 2)
  ∧ (∀ e, nvmlDeviceGetCount nv = Raises e → MAX_WORKERS nv = 2)
  ∧ (∀ e, nvmlDeviceGetHandleByIndex nv 0 = Raises e → MAX_WORKERS nv = 2)
  ∧ (∀ handle e, nvmlDeviceGetHandleByIndex nv 0 = Returns handle →
                 nvmlDeviceGetMemoryInfo nv handle = Raises e → MAX_WORKERS nv = 2)
  ∧ (∀ e, nvmlShutdown nv = Raises e → MAX_WORKERS nv = 2).
Proof.
  split.
  { unfold MAX_WORKERS. destruct (estimate_workers nv) eqn:He; [|lia].
    by apply (estimate_workers_range nv). }
  split_and!.
  - intros count handle free Hi Hc Hpos Hh Hm Hs.
    unfold MAX_WORKERS, estimate_workers. rewrite Hi, Hc.
    cbn [mbind outcome_bind]. rewrite decide_True by done. rewrite Hh.
    cbn [mbind outcome_bind]. rewrite Hm. cbn [mbind outcome_bind mret outcome_ret].
    rewrite Hs. cbn [mbind outcome_bind mret outcome_ret].
    unfold free_memory_estimate. by rewrite floor_free_mem.
  - intros Hc. unfold MAX_WORKERS, estimate_workers. rewrite Hc.
    destruct (nvmlInit nv); simpl; [|done]. destruct (nvmlShutdown nv); done.
  - intros e He. unfold MAX_WORKERS. by rewrite He.
  - intros e He. unfold MAX_WORKERS, estimate_workers. by rewrite He.
  - intros e He. unfold MAX_WORKERS, estimate_workers. rewrite He.
    by destruct (nvmlInit nv).
  - intros e He. unfold MAX_WORKERS, estimate_workers. rewrite He.
    destruct (nvmlInit nv); simpl; [|done].
    destruct (nvmlDeviceGetCount nv); simpl; [|done].
    case_decide; simpl; [done|]. by destruct (nvmlShutdown nv).
  - intros handle e Hh He. unfold MAX_WORKERS, estimate_workers. rewrite Hh.
    destruct (nvmlInit nv); simpl; [|done].
    destruct (nvmlDeviceGetCount nv); simpl; [|done].
    case_decide; simpl; [by rewrite He|]. by destruct (nvmlShutdown nv).
  - intros e He. unfold MAX_WORKERS, estimate_workers. rewrite He.
    destruct (nvmlInit nv); simpl; [|done].
    destruct (nvmlDeviceGetCount nv); simpl; [|done].
    case_decide; simpl; [|done].
    destruct (nvmlDeviceGetHandleByIndex nv 0) as [h|]; simpl; [|done].
    by destruct (nvmlDeviceGetMemoryInfo nv h).
Qed.

(** * Further properties of the script *)

Section Further.
Context {Page : Type} (str : exn → string) (repr : json → string).
Local Abbreviation World := (@World Page).
Local Abbreviation Gathered := (@Gathered Page).
Local Abbreviation WorkItem := (@WorkItem Page).
Local Abbreviation Future := (@Future Page).
Local Abbreviation Collected := (@Collected Page).
Local Abbreviation SessionState := (@SessionState Page).
Local Abbreviation PageResult := (@PageResult Page).
Local Abbreviation TaskWorld := (@TaskWorld Page).
Implicit Types (w : World) (g : Gathered) (f : StoredFile) (files : list StoredFile).
Implicit Types (n : string) (k : nat) (ss : SessionState).
Implicit Types (fut : Future) (fs : list Future) (item : WorkItem) (items : list WorkItem).

(** ** The batch of work items *)

Lemma gather_from_items w k files g :
  all_pages (gather_from str w k files g)
  = all_pages g ++ mjoin (imap (λ j, file_items w (k + j)) files).
Proof.
  revert k g. induction files as [|f files IH]; intros k g; simpl.
  - by rewrite app_nil_r.
  - rewrite IH, gather_file_items, <- app_assoc, Nat.add_0_r. do 3 f_equal.
    apply imap_ext. intros j f' _. simpl. f_equal. lia.
Qed.

(** X1. The batch of a run is the concatenation, in the order of the stored
    files, of the pages of every file that rasterised, each file numbered
    from 1 in page order; a file that failed adds nothing; and
    [total_pages] is the length of the batch. *)
Theorem batch_is_pages_in_upload_order w files :
  all_pages (gather str w files)
  = mjoin (imap (λ k f,
      match convert_from_bytes w k (data f) with
      | Returns pages => imap (λ i page, (name f, page, S i)) pages
      | Raises _ => []
      end) files)
  ∧ total_pages (gather str w files) = length (all_pages (gather str w files)).
Proof.
  split; [|apply gather_ok].
  unfold gather. by rewrite gather_from_items.
Qed.

Lemma item_in_batch w files item :
  item ∈ all_pages (gather str w files)
  ↔ ∃ k f pages i page,
      files !! k = Some f ∧ convert_from_bytes w k (data f) = Returns pages
      ∧ pages !! i = Some page ∧ item = (name f, page, S i).
Proof.
  unfold gather. rewrite gather_from_items. simpl.
  rewrite list_elem_of_join. split.
  - intros (l & Hitem & Hl).
    apply elem_of_lookup_imap_1 in Hl as (k & f & -> & Hf).
    unfold file_items in Hitem. simpl in Hitem.
    destruct (convert_from_bytes w k (data f)) as [pages|] eqn:Hc;
      [|by apply elem_of_nil in Hitem].
    apply elem_of_lookup_imap_1 in Hitem as (i & page & -> & Hi).
    by exists k, f, pages, i, page.
  - intros (k & f & pages & i & page & Hf & Hc & Hi & ->).
    exists (file_items w k f). split.
    + unfold file_items. rewrite Hc.
      by apply (elem_of_lookup_imap_2 (λ i page, (name f, page, S i)) pages page i).
    + by apply (elem_of_lookup_imap_2 (λ j, file_items w (0 + j)) files f k).
Qed.

(** ** The guard and the processed flag *)

(** X2. A run leaves the session untouched and shows nothing exactly when
    the upload widget is empty or the session is already marked as
    processed. *)
Theorem script_idle_iff w ss uploads :
  script str w ss uploads = (ss, []) ↔ uploads = [] ∨ processed ss = true.
Proof.
  split.
  - intros Hrun. destruct (guard ss uploads) eqn:Hg.
    + exfalso. apply (f_equal snd) in Hrun. unfold script in Hrun.
      rewrite Hg in Hrun. simpl in Hrun.
      destruct (decide (all_pages _ = [])); discriminate Hrun.
    + unfold guard in Hg. apply andb_false_iff in Hg as [Hg|Hg].
      * left. apply bool_decide_eq_false in Hg. by destruct uploads; [|destruct Hg].
      * right. by destruct (processed ss).
  - intros [->|Hp]; [|by apply script_processed].
    unfold script, guard. by rewrite bool_decide_eq_false_2 by (by intros ?).
Qed.

(** X3. A run that passes the guard marks the session as processed exactly
    when some stored file rasterised into at least one page. *)
Theorem processed_iff_some_page w ss uploads :
  guard ss uploads = true →
  processed (script str w ss uploads).1 = true
  ↔ ∃ k f pages,
      store_uploads ss uploads !! k = Some f
      ∧ convert_from_bytes w k (data f) = Returns pages ∧ pages ≠ [].
Proof.
  intros Hg. destruct (script_state str w ss uploads Hg) as (_ & _ & _ & _ & -> & _).
  rewrite bool_decide_eq_true. split.
  - intros Hne.
    destruct (all_pages (gather str w (store_uploads ss uploads))) as [|item rest] eqn:Hall;
      [done|].
    assert (Hin : item ∈ all_pages (gather str w (store_uploads ss uploads)))
      by (rewrite Hall; left).
    apply item_in_batch in Hin as (k & f & pages & i & page & Hf & Hc & Hi & _).
    exists k, f, pages. split_and!; [done..|]. intros ->. by rewrite lookup_nil in Hi.
  - intros (k & f & pages & Hf & Hc & Hne) Hnil.
    destruct pages as [|page pages]; [done|].
    assert (Hin : (name f, page, 1%nat) ∈ all_pages (gather str w (store_uploads ss uploads))).
    { apply item_in_batch. by exists k, f, (page :: pages), 0%nat, page. }
    rewrite Hnil in Hin. by apply elem_of_nil in Hin.
Qed.

(** ** The keys of the three dicts *)

Lemma gather_file_dom w k f g n :
  dom (g_results g) = dom (g_times g) → dom (g_times g) = dom (g_debug g) →
  let g' := gather_file str w k f g in
  dom (g_results g') = dom (g_times g') ∧ dom (g_times g') = dom (g_debug g')
  ∧ (n ∈ dom (g_results g')
     ↔ n ∈ dom (g_results g)
       ∨ name f = n ∧ returned (convert_from_bytes w k (data f)) = true).
Proof.
  intros H1 H2. unfold gather_file.
  destruct (convert_from_bytes w k (data f)) as [pages|e]; simpl.
  - rewrite !dom_insert_L, H1, H2. split_and!; [done..|].
    rewrite elem_of_union, elem_of_singleton, <- H2, <- H1. split.
    + intros [-> | ?]; [by right|by left].
    + intros [?|[-> _]]; [by right|by left].
  - split_and!; [done..|]. split; [by left|]. by intros [?|[_ ?]].
Qed.

Lemma gather_from_dom w k files g n :
  dom (g_results g) = dom (g_times g) → dom (g_times g) = dom (g_debug g) →
  let g' := gather_from str w k files g in
  dom (g_results g') = dom (g_times g') ∧ dom (g_times g') = dom (g_debug g')
  ∧ (n ∈ dom (g_results g')
     ↔ n ∈ dom (g_results g)
       ∨ ∃ j f, files !! j = Some f ∧ name f = n
                ∧ returned (convert_from_bytes w (k + j) (data f)) = true).
Proof.
  revert k g. induction files as [|f files IH]; intros k g H1 H2; simpl.
  - split_and!; [done..|]. split; [auto|]. intros [?|(j & f & Hj & _)]; [done|].
    by rewrite lookup_nil in Hj.
  - destruct (gather_file_dom w k f g n H1 H2) as (G1 & G2 & G3).
    destruct (IH (S k) _ G1 G2) as (I1 & I2 & I3).
    split_and!; [done..|]. rewrite I3, G3. split.
    + intros [[?|[? ?]]|(j & f' & Hj & ? & Hr)]; [by left| |].
      * right. exists 0%nat, f. by rewrite Nat.add_0_r.
      * right. exists (S j), f'. split_and!; [done..|].
        by replace (k + S j)%nat with (S k + j)%nat by lia.
    + intros [?|(j & f' & Hj & ? & Hr)]; [by left; left|].
      destruct j as [|j]; simpl in Hj.
      * injection Hj as ->. rewrite Nat.add_0_r in Hr. left; right. done.
      * right. exists j, f'. split_and!; [done..|].
        by replace (S k + j)%nat with (k + S j)%nat by lia.
Qed.

Lemma dispatch_dom w g : dom (c_results (dispatch str w g)) = dom (g_results g).
Proof.
  apply set_eq. intros n. rewrite !elem_of_dom. unfold dispatch.
  rewrite collect_all_lookup. simpl. by rewrite fmap_is_Some.
Qed.

(** X4. After a run that passes the guard the three dicts have the same
    keys: exactly the names of the stored files that rasterised. Whatever
    the session held before under other names is gone. *)
Theorem dicts_share_keys w ss uploads :
  guard ss uploads = true →
  let r := script str w ss uploads in
  dom (file_results r.1) = dom (file_times r.1)
  ∧ dom (file_times r.1) = dom (debug_info r.1)
  ∧ ∀ n, n ∈ dom (file_results r.1)
         ↔ ∃ k f, store_uploads ss uploads !! k = Some f ∧ name f = n
                  ∧ returned (convert_from_bytes w k (data f)) = true.
Proof.
  intros Hg r.
  destruct (script_state str w ss uploads Hg) as (Hres & Ht & Hd & _).
  assert (Hdom : dom (file_results r.1)
                 = dom (g_results (gather str w (store_uploads ss uploads)))).
  { unfold r. rewrite Hres. case_decide; [done|].
    by rewrite dom_fmap_L, dispatch_dom. }
  unfold r in *. rewrite Hdom, Ht, Hd.
  assert (Hn : ∀ n,
    let g' := gather str w (store_uploads ss uploads) in
    dom (g_results g') = dom (g_times g') ∧ dom (g_times g') = dom (g_debug g')
    ∧ (n ∈ dom (g_results g')
       ↔ n ∈ dom (g_results (gather_start (Page:=Page)))
         ∨ ∃ j f, store_uploads ss uploads !! j = Some f ∧ name f = n
                  ∧ returned (convert_from_bytes w (0 + j) (data f)) = true)).
  { intros n. by apply gather_from_dom. }
  destruct (Hn "") as (D1 & D2 & _). split_and!; [done..|].
  intros n. destruct (Hn n) as (_ & _ & ->). simpl. rewrite dom_empty_L.
  split; [intros [[]%not_elem_of_empty|?]; done|by right].
Qed.

(** ** Every failure is reported once *)

Lemma gather_file_errors w k f g :
  count_errors (g_notices (gather_file str w k f g))
  = (count_errors (g_notices g)
     + if returned (convert_from_bytes w k (data f)) then 0 else 1)%nat.
Proof.
  unfold gather_file. destruct (convert_from_bytes w k (data f)); simpl; [lia|].
  by rewrite count_errors_app.
Qed.

Lemma gather_from_errors w k files g :
  count_errors (g_notices (gather_from str w k files g))
  = (count_errors (g_notices g)
     + length (filter (λ o, negb (returned o))
                 (imap (λ j f, convert_from_bytes w (k + j) (data f)) files)))%nat.
Proof.
  revert k g. induction files as [|f files IH]; intros k g; [simpl; lia|].
  cbn [gather_from]. rewrite IH, gather_file_errors, imap_cons, filter_cons, Nat.add_0_r.
  assert (Hshift : imap ((λ j f, convert_from_bytes w (k + j) (data f)) ∘ S) files
                   = imap (λ j f, convert_from_bytes w (S k + j) (data f)) files).
  { apply imap_ext. intros j f' _. simpl. f_equal. lia. }
  rewrite Hshift.
  destruct (returned (convert_from_bytes w k (data f))); simpl; lia.
Qed.

Lemma count_errors_cons x l :
  count_errors (x :: l) = ((if is_error x then 1 else 0) + count_errors l)%nat.
Proof. unfold count_errors. rewrite filter_cons. by destruct (is_error x). Qed.

(** X5. A run that passes the guard shows one error notice for every stored
    file whose rasterisation raised and one for every page whose
    [process_page] call raised, and no other error notice. *)
Theorem errors_are_failures w ss uploads :
  guard ss uploads = true →
  count_errors (script str w ss uploads).2
  = (count_failed_files w (store_uploads ss uploads)
     + count_raised (run_futures str w ss uploads))%nat.
Proof.
  intros Hg. unfold count_failed_files, conversions, run_futures.
  set (g := gather str w (store_uploads ss uploads)).
  assert (Hfailed : count_errors (g_notices g)
    = length (filter (λ o, negb (returned o))
        (imap (λ k f, convert_from_bytes w k (data f)) (store_uploads ss uploads)))).
  { unfold g, gather. by rewrite gather_from_errors. }
  rewrite <- Hfailed.
  destruct (dispatch_counts str w g (gather_ok str w _)) as (_ & _ & Hraised).
  unfold script. rewrite Hg. fold g.
  destruct (decide (all_pages g = [])) as [Hnil|Hne]; cbn [snd].
  - rewrite Hnil. rewrite !count_errors_app, !count_errors_cons.
    unfold count_raised. simpl. change (count_errors []) with 0%nat. lia.
  - rewrite !count_errors_app, !count_errors_cons, Hraised. simpl.
    change (count_errors []) with 0%nat. lia.
Qed.

(** ** Progress *)

Lemma progress_values_app l1 l2 :
  progress_values (l1 ++ l2) = progress_values l1 ++ progress_values l2.
Proof. apply omap_app. Qed.

Lemma collect_progress total fs (c : Collected) :
  let c' := foldl (collect str total) c fs in
  progress_values (c_notices c')
  = progress_values (c_notices c)
    ++ ((λ d, (d, total)) <$> seq (S (processed_pages c)) (count_returned fs))
  ∧ processed_pages c' = (processed_pages c + count_returned fs)%nat.
Proof.
  revert c. induction fs as [|fut fs IH]; intros c; cbn [foldl].
  { unfold count_returned. simpl. rewrite app_nil_r. split; [done|lia]. }
  destruct (IH (collect str total c fut)) as [-> ->].
  unfold count_returned. rewrite filter_cons. unfold collect.
  destruct (fut_result fut) as [t|e]; simpl.
  - destruct (c_results c !! pt_file_name t); simpl;
      rewrite !progress_values_app; simpl; rewrite <- ?app_assoc; simpl;
      rewrite ?app_nil_r; (split; [done|lia]).
  - rewrite progress_values_app. simpl. rewrite app_nil_r. split; [done|lia].
Qed.

Lemma gather_from_no_progress w k files g :
  progress_values (g_notices g) = [] →
  progress_values (g_notices (gather_from str w k files g)) = [].
Proof.
  revert k g. induction files as [|f files IH]; intros k g Hg; simpl; [done|].
  apply IH. unfold gather_file.
  destruct (convert_from_bytes w k (data f)); simpl; [done|].
  by rewrite progress_values_app, Hg.
Qed.

(** X6. The progress bar is set once for every page whose call returned, to
    1, 2, 3, ... out of the number of submitted pages, and never beyond
    that number. *)
Theorem progress_counts_up w ss uploads :
  guard ss uploads = true →
  let total := length (all_pages (gather str w (store_uploads ss uploads))) in
  let shown := count_returned (run_futures str w ss uploads) in
  progress_values (script str w ss uploads).2 = (λ d, (d, total)) <$> seq 1 shown
  ∧ (shown ≤ total)%nat.
Proof.
  intros Hg total shown.
  set (g := gather str w (store_uploads ss uploads)) in *.
  assert (Hle : (shown ≤ total)%nat).
  { pose proof (count_split (run_futures str w ss uploads)) as Hs.
    assert (Hlen : length (run_futures str w ss uploads) = total).
    { unfold run_futures, submit_all. by rewrite length_imap. }
    unfold shown. lia. }
  split; [|done].
  assert (Hgather : progress_values (g_notices g) = [])
    by (by apply gather_from_no_progress).
  unfold script. rewrite Hg. fold g.
  destruct (decide (all_pages g = [])) as [Hnil|Hne]; cbn [snd].
  - change (InfoBox ?m :: ?l) with ([InfoBox m] ++ l).
    rewrite !progress_values_app, Hgather.
    unfold shown, run_futures. fold g. by rewrite Hnil.
  - change (InfoBox ?m :: ?l) with ([InfoBox m] ++ l).
    rewrite !progress_values_app, Hgather.
    change (progress_values [InfoBox _]) with (@nil (nat * nat)).
    change (progress_values [ProgressText _]) with (@nil (nat * nat)).
    rewrite app_nil_r. cbn [app].
    unfold dispatch.
    destruct (collect_progress (total_pages g)
                (as_completed (completion w) (length (submit_all str w (all_pages g)))
                   (submit_all str w (all_pages g)))
                {| c_results := g_results g; processed_pages := 0; c_notices := [] |})
      as [-> _].
    cbn [c_notices processed_pages]. change (progress_values []) with (@nil (nat * nat)).
    cbn [app].
    destruct (count_perm _ _ (as_completed_perm (completion w)
                                (submit_all str w (all_pages g)))) as [-> _].
    destruct (gather_ok str w (store_uploads ss uploads)) as (_ & _ & Htot).
    fold g in Htot. rewrite Htot. by rewrite app_nil_r.
Qed.

(** ** Where the results come from *)

Lemma results_collected w ss uploads n results :
  guard ss uploads = true →
  file_results (script str w ss uploads).1 !! n = Some results →
  g_results (gather str w (store_uploads ss uploads)) !! n = Some []
  ∧ Sorted le (pr_page <$> results)
  ∧ results ≡ₚ collected_for n (run_futures str w ss uploads).
Proof.
  intros Hg Hlook.
  destruct (script_results str w ss uploads n Hg) as [Hnone Hsome].
  destruct (g_results (gather str w (store_uploads ss uploads)) !! n) as [l|] eqn:Hl.
  - destruct (gather_ok str w (store_uploads ss uploads)) as (_ & Hnil & _).
    rewrite (Hnil n l Hl) in *.
    destruct (Hsome eq_refl) as (results' & Hlook' & Hsorted & Hperm).
    rewrite Hlook in Hlook'. injection Hlook' as <-. done.
  - rewrite (Hnone eq_refl) in Hlook. discriminate.
Qed.

(** X7. Every entry of a result list after a run is the result of one
    submitted work item of that name: it carries the page number and the
    image of the work item and what the [process_page] call of this work
    item returned. *)
Theorem results_come_from_work_items w ss uploads n results r :
  guard ss uploads = true →
  file_results (script str w ss uploads).1 !! n = Some results →
  r ∈ results →
  ∃ j page t,
    all_pages (gather str w (store_uploads ss uploads)) !! j = Some (n, page, pr_page r)
    ∧ (process_page str (task w j) n page (pr_page r)).2 = Returns t
    ∧ r = page_result t
    ∧ pr_image r = page.
Proof.
  intros Hg Hlook Hr.
  destruct (results_collected w ss uploads n results Hg Hlook) as (_ & _ & Hperm).
  rewrite Hperm in Hr. unfold collected_for in Hr.
  apply list_elem_of_omap in Hr as (fut & Hfut & Hr).
  unfold run_futures, submit_all in Hfut.
  apply elem_of_lookup_imap_1 in Hfut as (j & [[file_name page] page_idx] & -> & Hitem).
  unfold submit in Hr.
  destruct (process_page str (task w j) file_name page page_idx) as [sent res] eqn:Hpp.
  simpl in Hr. destruct res as [t|e]; [|done].
  case_decide as Hname; [|done]. injection Hr as <-.
  unfold process_page in Hpp.
  destruct (save_png (task w j) page) as [png|] eqn:Hsave; [|done].
  injection Hpp as _ <-. simpl in Hname. subst file_name.
  exists j, page. eexists. simpl. split_and!; [done| |reflexivity|done].
  unfold process_page. by rewrite Hsave.
Qed.

(** ** The completion order does not show in the results *)

Lemma same_keys_same_list {A} (key : A → nat) (l1 l2 : list A) :
  l1 ≡ₚ l2 → key <$> l1 = key <$> l2 → NoDup (key <$> l2) → l1 = l2.
Proof.
  revert l2. induction l1 as [|x l1 IH]; intros l2 Hp Hk Hnd.
  - by apply Permutation_nil_l in Hp.
  - destruct l2 as [|y l2]; [by apply Permutation_nil_r in Hp|].
    simpl in Hk. injection Hk as Hxy Hk.
    apply NoDup_cons in Hnd as [Hy Hnd].
    assert (x = y) as ->.
    { assert (Hx : x ∈ y :: l2) by (rewrite <- Hp; left).
      apply elem_of_cons in Hx as [?|Hx]; [done|].
      destruct Hy. rewrite <- Hxy. by apply list_elem_of_fmap_2. }
    f_equal. apply IH; [by eapply Permutation_cons_inv|done..].
Qed.

Lemma increasing_NoDup (ks : list nat) : StronglySorted lt ks → NoDup ks.
Proof.
  induction 1 as [|k ks _ IH Hall]; constructor; [|done].
  intros Hin. rewrite Forall_forall in Hall. specialize (Hall k Hin). lia.
Qed.

(** With distinct names, the result list of a name is the list of the
    results of its pages in submission order. *)
Lemma results_in_submission_order w ss uploads n results :
  guard ss uploads = true →
  NoDup (name <$> store_uploads ss uploads) →
  file_results (script str w ss uploads).1 !! n = Some results →
  results = collected_for n (run_futures str w ss uploads).
Proof.
  intros Hg Hnd Hlook.
  destruct (results_collected w ss uploads n results Hg Hlook) as (Hn & Hsorted & Hperm).
  set (g := gather str w (store_uploads ss uploads)) in *.
  assert (Hfile : ∃ k f, store_uploads ss uploads !! k = Some f ∧ name f = n
                         ∧ returned (convert_from_bytes w k (data f)) = true).
  { destruct (gather_from_dom w 0 (store_uploads ss uploads) gather_start n)
      as (_ & _ & Hdom); [done..|].
    fold (gather str w (store_uploads ss uploads)) in Hdom. fold g in Hdom.
    assert (Hin : n ∈ dom (g_results g)) by (apply elem_of_dom; eauto).
    apply Hdom in Hin as [Hin|Hin]; [|done].
    simpl in Hin. rewrite dom_empty_L in Hin. by apply not_elem_of_empty in Hin. }
  destruct Hfile as (k & f & Hk & <- & Hret).
  destruct (convert_from_bytes w k (data f)) as [pages|] eqn:Hc; [|done].
  destruct (gather_unique str w _ k f Hnd Hk)
    as (pre & post & g0 & _ & _ & Hg0 & _ & Hview & _).
  rewrite (gather_file_returns str w k f g0 pages Hc) in Hview.
  unfold view in Hview, Hg0.
  injection Hg0 as _ _ _ Hitems0. rewrite Hitems0 in Hview. simpl in Hview.
  injection Hview as _ _ _ Hitems. fold g in Hitems.
  destruct (submit_all_futures str w (name f) (all_pages g)) as [Hok Hidx].
  destruct (collected_for_pages (name f) _ Hok) as [Hsub _].
  rewrite Hidx, Hitems, (file_items_idx w k f pages Hc) in Hsub.
  fold (run_futures str w ss uploads) in Hsub.
  pose proof (StronglySorted_sublist lt _ _ Hsub (seq_increasing 1 (length pages)))
    as Hinc.
  apply (same_keys_same_list pr_page); [done| |by apply increasing_NoDup].
  apply (Sorted_unique le); [done|by apply increasing_sorted|by apply fmap_Permutation].
Qed.

Lemma gather_from_completion w choices k files g :
  gather_from str (with_completion w choices) k files g = gather_from str w k files g.
Proof.
  revert k g. induction files as [|f files IH]; intros k g; simpl; [done|].
  by rewrite IH.
Qed.

Lemma session_state_eq (s1 s2 : SessionState) :
  file_results s1 = file_results s2 → file_times s1 = file_times s2 →
  debug_info s1 = debug_info s2 → processed s1 = processed s2 →
  uploaded_files s1 = uploaded_files s2 → s1 = s2.
Proof. destruct s1, s2. simpl. by intros -> -> -> -> ->. Qed.

(** X8. With distinct document names, the session state after a run does
    not depend on the order in which the futures complete. *)
Theorem state_independent_of_completion w ss uploads choices :
  guard ss uploads = true →
  NoDup (name <$> store_uploads ss uploads) →
  (script str (with_completion w choices) ss uploads).1 = (script str w ss uploads).1.
Proof.
  intros Hg Hnd.
  assert (Hgather : gather str (with_completion w choices) (store_uploads ss uploads)
                    = gather str w (store_uploads ss uploads))
    by apply gather_from_completion.
  assert (Hfut : run_futures str (with_completion w choices) ss uploads
                 = run_futures str w ss uploads).
  { unfold run_futures. by rewrite Hgather. }
  destruct (script_state str w ss uploads Hg) as (_ & T1 & D1 & U1 & P1 & _).
  destruct (script_state str (with_completion w choices) ss uploads Hg)
    as (_ & T2 & D2 & U2 & P2 & _).
  rewrite Hgather in T2, D2, P2.
  apply session_state_eq; [|congruence..].
  apply map_eq. intros n.
  destruct (file_results (script str w ss uploads).1 !! n) as [results|] eqn:H1;
    destruct (file_results (script str (with_completion w choices) ss uploads).1 !! n)
      as [results'|] eqn:H2; [| | |done].
  - rewrite (results_in_submission_order w ss uploads n results Hg Hnd H1).
    rewrite (results_in_submission_order _ ss uploads n results' Hg Hnd H2).
    by rewrite Hfut.
  - destruct (results_collected w ss uploads n results Hg H1) as (Hn & _).
    destruct (script_results str (with_completion w choices) ss uploads n Hg)
      as [_ Hsome].
    rewrite Hgather in Hsome. destruct (Hsome Hn) as (? & Hl & _). congruence.
  - destruct (results_collected _ ss uploads n results' Hg H2) as (Hn & _).
    rewrite Hgather in Hn.
    destruct (script_results str w ss uploads n Hg) as [_ Hsome].
    destruct (Hsome Hn) as (? & Hl & _). congruence.
Qed.

(** ** Uploads under the stored names *)

(** X9. When the names in the upload widget are the stored names, the run
    works on the stored bytes: the bytes of the upload are not read, and
    the stored files stay as they are. *)
Theorem same_names_keep_stored_bytes w ss uploads uploads' :
  uf_name <$> uploads = name <$> uploaded_files ss →
  uf_name <$> uploads' = uf_name <$> uploads →
  script str w ss uploads' = script str w ss uploads
  ∧ uploaded_files (script str w ss uploads).1 = uploaded_files ss.
Proof.
  intros Hstored Hsame.
  assert (Hs : store_uploads (Page:=Page) ss uploads = uploaded_files ss).
  { unfold store_uploads. by rewrite decide_False by (by intros ?). }
  assert (Hs' : store_uploads (Page:=Page) ss uploads' = uploaded_files ss).
  { unfold store_uploads. rewrite Hsame. by rewrite decide_False by (by intros ?). }
  assert (Hguard : guard ss uploads' = guard ss uploads).
  { unfold guard. f_equal.
    destruct uploads, uploads'; simpl in Hsame; try discriminate; done. }
  split.
  - unfold script. by rewrite Hguard, Hs, Hs'.
  - destruct (guard ss uploads) eqn:Hg.
    + destruct (script_state str w ss uploads Hg) as (_ & _ & _ & -> & _). done.
    + unfold script. by rewrite Hg.
Qed.

(** ** [process_page] and its request *)

(** [process_page] raises exactly when encoding the page as PNG raises,
    with the same exception, and then it has sent no request; whatever the
    backend does, a page that encodes gives a tuple with the name, the
    page number and the image it was called with and the base64 of the
    PNG. *)
Theorem process_page_raises_iff (tw : TaskWorld) file_name (page : Page) page_idx :
  (∀ e, (process_page str tw file_name page page_idx).2 = Raises e
        ↔ save_png tw page = Raises e)
  ∧ (∀ e, save_png tw page = Raises e →
          (process_page str tw file_name page page_idx).1 = [])
  ∧ (∀ t, (process_page str tw file_name page page_idx).2 = Returns t →
          pt_file_name t = file_name ∧ pt_page_idx t = page_idx ∧ pt_page t = page
          ∧ ∃ img_bytes, save_png tw page = Returns img_bytes
                         ∧ pt_img_b64 t = b64encode img_bytes).
Proof.
  unfold process_page. destruct (save_png tw page) as [img_bytes|e0]; simpl.
  - split_and!.
    + intros e. split; intros ?; discriminate.
    + intros e ?. discriminate.
    + intros t [= <-]. simpl. split_and!; [done..|]. by exists img_bytes.
  - split_and!.
    + intros e. split; by intros [= ->].
    + done.
    + intros t ?. discriminate.
Qed.

(** ** The sidebar totals *)

Lemma pages_sum_insert (m : gmap string DebugInfo) n info :
  m !! n = None → pages_sum (<[n:=info]> m) = (page_count info + pages_sum m)%nat.
Proof.
  intros Hn. unfold pages_sum.
  rewrite map_fold_insert_L; [done| |done]. intros; lia.
Qed.

Lemma gather_from_totals w k files g :
  NoDup (name <$> files) →
  (∀ f, f ∈ files → g_debug g !! name f = None) →
  let g' := gather_from str w k files g in
  (pages_sum (g_debug g') + length (all_pages g)
   = pages_sum (g_debug g) + length (all_pages g'))%nat
  ∧ (size (g_debug g')
     + length (filter (λ o, negb (returned o))
                 (imap (λ j f, convert_from_bytes w (k + j) (data f)) files))
     = size (g_debug g) + length files)%nat.
Proof.
  revert k g. induction files as [|f files IH]; intros k g Hnd Hfresh; [simpl; lia|].
  cbn [gather_from]. rewrite fmap_cons in Hnd. apply NoDup_cons in Hnd as [Hf Hnd].
  assert (Hfresh' : ∀ f', f' ∈ files → g_debug (gather_file str w k f g) !! name f' = None).
  { intros f' Hin. unfold gather_file.
    destruct (convert_from_bytes w k (data f)); simpl; [|apply Hfresh; by right].
    rewrite lookup_insert_ne; [apply Hfresh; by right|].
    intros Heq. apply Hf. rewrite Heq. by apply list_elem_of_fmap_2. }
  destruct (IH (S k) (gather_file str w k f g) Hnd Hfresh') as [IH1 IH2].
  rewrite imap_cons, filter_cons, Nat.add_0_r.
  assert (Hshift : imap ((λ j f, convert_from_bytes w (k + j) (data f)) ∘ S) files
                   = imap (λ j f, convert_from_bytes w (S k + j) (data f)) files).
  { apply imap_ext. intros j f' _. simpl. f_equal. lia. }
  rewrite Hshift. clear Hshift.
  assert (Hnone : g_debug g !! name f = None) by (apply Hfresh; by left).
  pose proof (gather_file_items str w k f g) as Hitems.
  revert IH1 IH2 Hitems. unfold gather_file, file_items.
  destruct (convert_from_bytes w k (data f)) as [pages|e]; simpl; intros IH1 IH2 Hitems.
  - rewrite pages_sum_insert in IH1 by done. simpl in IH1.
    rewrite map_size_insert_None in IH2 by done.
    rewrite length_app, length_imap in IH1. lia.
  - rewrite ?app_nil_r in IH1. lia.
Qed.

(** X10. With distinct document names the sidebar of a finished run shows
    the number of submitted pages as "Total pages", and the number of
    result lists, "Total files", is the number of stored files that
    rasterised. *)
Theorem sidebar_totals w ss uploads :
  guard ss uploads = true →
  NoDup (name <$> store_uploads ss uploads) →
  let r := script str w ss uploads in
  sidebar_total_pages r.1 = length (all_pages (gather str w (store_uploads ss uploads)))
  ∧ (size (file_results r.1) + count_failed_files w (store_uploads ss uploads)
     = length (store_uploads ss uploads))%nat.
Proof.
  intros Hg Hnd r.
  destruct (script_state str w ss uploads Hg) as (Hres & _ & Hd & _).
  destruct (gather_from_totals w 0 (store_uploads ss uploads) gather_start Hnd)
    as [Hsum Hsize]; [done|].
  fold (gather str w (store_uploads ss uploads)) in Hsum, Hsize.
  set (g := gather str w (store_uploads ss uploads)) in *.
  split.
  - unfold sidebar_total_pages, r. rewrite Hd. fold (pages_sum (g_debug g)).
    simpl in Hsum. change (pages_sum ∅) with 0%nat in Hsum. lia.
  - assert (Hsame : size (file_results r.1) = size (g_debug g)).
    { destruct (gather_from_dom w 0 (store_uploads ss uploads) gather_start "")
        as (D1 & D2 & _); [done..|].
      fold (gather str w (store_uploads ss uploads)) in D1, D2. fold g in D1, D2.
      rewrite <- !size_dom. f_equal. rewrite <- D2, <- D1.
      unfold r. rewrite Hres. case_decide; [done|].
      by rewrite dom_fmap_L, dispatch_dom. }
    rewrite Hsame. unfold count_failed_files, conversions.
    simpl in Hsize. rewrite map_size_empty in Hsize. lia.
Qed.

(** ** The combined export *)

Lemma key_order_from_spec w k files keys n :
  NoDup keys →
  NoDup (key_order_from w k files keys)
  ∧ (n ∈ key_order_from w k files keys
     ↔ n ∈ keys
       ∨ ∃ j f, files !! j = Some f ∧ name f = n
                ∧ returned (convert_from_bytes w (k + j) (data f)) = true).
Proof.
  revert k keys. induction files as [|f files IH]; intros k keys Hnd; simpl.
  - split; [done|]. split; [auto|]. intros [?|(j & f & Hj & _)]; [done|].
    by rewrite lookup_nil in Hj.
  - set (keys' := match convert_from_bytes w k (data f) with
                  | Returns _ => if decide (name f ∈ keys) then keys else keys ++ [name f]
                  | Raises _ => keys
                  end).
    assert (Hkeys' : NoDup keys'
              ∧ (n ∈ keys' ↔ n ∈ keys ∨ name f = n
                                ∧ returned (convert_from_bytes w k (data f)) = true)).
    { unfold keys'. destruct (convert_from_bytes w k (data f)); simpl.
      - case_decide as Hin.
        + split; [done|]. split; [auto|]. intros [?|[<- _]]; done.
        + split.
          * apply NoDup_app. split_and!; [done| |apply NoDup_singleton].
            intros x Hx Hx'%list_elem_of_singleton. by subst.
          * rewrite elem_of_app, list_elem_of_singleton. split.
            -- intros [? | ->]; auto.
            -- intros [?|[<- _]]; auto.
      - split; [done|]. split; [auto|]. by intros [?|[_ ?]]. }
    destruct Hkeys' as [Hnd' Hin'].
    destruct (IH (S k) keys' Hnd') as [I1 I2]. split; [done|].
    rewrite I2, Hin'. split.
    + intros [[?|[? ?]]|(j & f' & Hj & ? & Hr)]; [by left| |].
      * right. exists 0%nat, f. by rewrite Nat.add_0_r.
      * right. exists (S j), f'. split_and!; [done..|].
        by replace (k + S j)%nat with (S k + j)%nat by lia.
    + intros [?|(j & f' & Hj & ? & Hr)]; [by left; left|].
      destruct j as [|j]; simpl in Hj.
      * injection Hj as ->. rewrite Nat.add_0_r in Hr. left; right. done.
      * right. exists j, f'. split_and!; [done..|].
        by replace (S k + j)%nat with (k + S j)%nat by lia.
Qed.

(** The key order of a finished run lists every key of [file_results]
    once. *)
Lemma key_order_keys w ss uploads :
  guard ss uploads = true →
  NoDup (key_order w (store_uploads ss uploads))
  ∧ ∀ n, n ∈ key_order w (store_uploads ss uploads)
         ↔ is_Some (file_results (script str w ss uploads).1 !! n).
Proof.
  intros Hg.
  destruct (script_state str w ss uploads Hg) as (Hres & _).
  split.
  { by destruct (key_order_from_spec w 0 (store_uploads ss uploads) [] "" (NoDup_nil_2)). }
  intros n. unfold key_order.
  destruct (key_order_from_spec w 0 (store_uploads ss uploads) [] n (NoDup_nil_2))
    as [_ ->].
  destruct (gather_from_dom w 0 (store_uploads ss uploads) gather_start n)
    as (_ & _ & Hdom); [done..|].
  fold (gather str w (store_uploads ss uploads)) in Hdom.
  rewrite <- elem_of_dom.
  assert (Hsame : dom (file_results (script str w ss uploads).1)
                  = dom (g_results (gather str w (store_uploads ss uploads)))).
  { rewrite Hres. case_decide; [done|]. by rewrite dom_fmap_L, dispatch_dom. }
  rewrite Hsame, Hdom. simpl. rewrite dom_empty_L.
  split; intros [Hin|?]; auto.
  - by apply elem_of_nil in Hin.
  - by apply not_elem_of_empty in Hin.
Qed.

Lemma bind_ext_in {A B} (f h : A → list B) (l : list A) :
  (∀ x, x ∈ l → f x = h x) → l ≫= f = l ≫= h.
Proof.
  induction l as [|x l IH]; intros Hfh; [done|].
  rewrite !bind_cons, Hfh by (by left). f_equal. apply IH. intros; apply Hfh; by right.
Qed.

Lemma entries_count (m : gmap string (list PageResult)) (keys : list string) :
  NoDup keys → (∀ n, n ∈ keys ↔ is_Some (m !! n)) →
  length (keys ≫= (λ n, (λ r, (n, r)) <$> default [] (m !! n))) = total_results m.
Proof.
  revert m. induction keys as [|n keys IH]; intros m Hnd Hkeys.
  - simpl. symmetry. apply total_results_nil. intros n l Hl.
    assert (Hin : n ∈ @nil string) by (apply Hkeys; eauto).
    by apply elem_of_nil in Hin.
  - apply NoDup_cons in Hnd as [Hn Hnd].
    destruct (proj1 (Hkeys n)) as [l Hl]; [by left|].
    assert (Htot : total_results m = (length l + total_results (delete n m))%nat).
    { rewrite <- (insert_delete_id m n l) at 1 by done.
      apply total_results_insert, lookup_delete_eq. }
    rewrite bind_cons, length_app, length_fmap, Hl, Htot. simpl.
    f_equal. rewrite <- (IH (delete n m) Hnd).
    + f_equal. apply bind_ext_in. intros n' Hin.
      rewrite lookup_delete_ne; [done|]. by intros ->.
    + intros n'. rewrite lookup_delete_is_Some, <- Hkeys, elem_of_cons. split.
      * intros Hin. split; [|by right]. by intros ->.
      * intros [Hne [-> | ?]]; done.
Qed.

(** X11. After a run the combined export has one entry for every
    [PageResult] of the session, and the download button is offered
    exactly when there is at least one. *)
Theorem combined_export_counts w ss uploads :
  guard ss uploads = true →
  let r := script str w ss uploads in
  let keys := key_order w (store_uploads ss uploads) in
  length (all_results repr keys r.1) = total_results (file_results r.1)
  ∧ (combined_download repr keys r.1 = None ↔ total_results (file_results r.1) = 0%nat).
Proof.
  intros Hg r keys.
  destruct (key_order_keys w ss uploads Hg) as [Hnd Hkeys].
  assert (Hlen : length (all_results repr keys r.1) = total_results (file_results r.1)).
  { unfold all_results, result_entries. rewrite length_fmap.
    by apply entries_count. }
  split; [done|]. rewrite <- Hlen. unfold combined_download.
  case_decide as Hnil.
  - rewrite Hnil. done.
  - split; [done|]. intros H0. by apply length_zero_iff_nil in H0.
Qed.

Lemma collected_for_app n fs1 fs2 :
  collected_for n (fs1 ++ fs2) = collected_for n fs1 ++ collected_for n fs2.
Proof. apply omap_app. Qed.

Lemma collected_for_other n n' (B : list Future) :
  block_of n' B → n ≠ n' → collected_for n B = [].
Proof.
  intros HB Hne. induction HB as [|fut B [Hname Hok] _ IH]; [done|].
  rewrite collected_for_cons, IH, app_nil_r. unfold collected_for. simpl.
  destruct (fut_result fut) as [t|] eqn:Ht; [|done].
  destruct (Hok t Ht) as [Hn _]. rewrite decide_False; [done|].
  unfold fut_named in Hname. congruence.
Qed.

Lemma collected_for_block n (B : list Future) :
  block_of n B → (λ r, (n, r)) <$> collected_for n B = omap entry_of B.
Proof.
  intros HB. induction HB as [|fut B [Hname Hok] _ IH]; [done|].
  rewrite collected_for_cons, fmap_app, IH. unfold collected_for, entry_of. simpl.
  destruct (fut_result fut) as [t|] eqn:Ht; [|done].
  destruct (Hok t Ht) as [Hn _]. unfold fut_named in Hname.
  rewrite decide_True by congruence. simpl. do 2 f_equal. congruence.
Qed.

Lemma collected_for_blocks n (ks : list string) (Bs : list (list Future)) :
  Forall2 block_of ks Bs → n ∉ ks → collected_for n (mjoin Bs) = [].
Proof.
  induction 1 as [|k B ks Bs HB _ IH]; intros Hn; [done|].
  simpl. rewrite collected_for_app, IH, app_nil_r.
  - apply (collected_for_other n k); [done|]. intros ->. apply Hn. by left.
  - intros Hin. apply Hn. by right.
Qed.

(** Futures grouped by name, in the order of the keys: reading the
    lists key by key gives back the futures in their order. *)
Lemma grouped_entries (ks : list string) (Bs : list (list Future)) :
  NoDup ks → Forall2 block_of ks Bs →
  ks ≫= (λ n, (λ r, (n, r)) <$> collected_for n (mjoin Bs)) = omap entry_of (mjoin Bs).
Proof.
  intros Hnd HBs. induction HBs as [|k B ks Bs HB HBs IH]; [done|].
  apply NoDup_cons in Hnd as [Hk Hnd].
  rewrite bind_cons. change (mjoin (B :: Bs)) with (B ++ mjoin Bs). rewrite omap_app.
  rewrite collected_for_app, (collected_for_blocks k ks Bs HBs Hk), app_nil_r.
  rewrite (collected_for_block k B HB). f_equal.
  rewrite <- (IH Hnd). apply bind_ext_in. intros n Hn.
  rewrite collected_for_app, (collected_for_other n k B HB); [done|].
  by intros ->.
Qed.

Lemma file_blocks w k files keys :
  NoDup (name <$> files) → (∀ f, f ∈ files → name f ∉ keys) →
  ∃ ks Bs,
    key_order_from w k files keys = keys ++ ks
    ∧ mjoin (imap (λ j, file_items w (k + j)) files) = mjoin Bs
    ∧ Forall2 item_block ks Bs.
Proof.
  revert k keys. induction files as [|f files IH]; intros k keys Hnd Hfresh.
  { exists [], []. simpl. by rewrite app_nil_r. }
  rewrite fmap_cons in Hnd. apply NoDup_cons in Hnd as [Hf Hnd].
  cbn [key_order_from]. rewrite imap_cons, Nat.add_0_r.
  change (mjoin (?x :: ?l)) with (x ++ mjoin l).
  assert (Hshift : imap ((λ j, file_items w (k + j)) ∘ S) files
                   = imap (λ j, file_items w (S k + j)) files).
  { apply imap_ext. intros j f' _. simpl. f_equal. lia. }
  rewrite Hshift. clear Hshift.
  pose proof (file_items_name w k f) as Hblock.
  destruct (convert_from_bytes w k (data f)) as [pages|e] eqn:Hc.
  - rewrite decide_False by (apply Hfresh; by left).
    destruct (IH (S k) (keys ++ [name f]) Hnd) as (ks & Bs & Hkeys & Hitems & HBs).
    { intros f' Hin [Hin'|Heq%list_elem_of_singleton]%elem_of_app.
      - by apply (Hfresh f'); [right|].
      - apply Hf. rewrite <- Heq. by apply list_elem_of_fmap_2. }
    exists (name f :: ks), (file_items w k f :: Bs).
    rewrite Hkeys, Hitems, <- app_assoc. split_and!; [done..|]. by constructor.
  - destruct (IH (S k) keys Hnd) as (ks & Bs & Hkeys & Hitems & HBs).
    { intros f' Hin. apply Hfresh. by right. }
    exists ks, Bs. rewrite Hkeys, Hitems. unfold file_items. by rewrite Hc.
Qed.

Lemma future_blocks (F : nat → WorkItem → Future) (ks : list string)
    (Bs : list (list WorkItem)) :
  (∀ j item, fut_file_name (F j item) = item_name item ∧ fut_ok (F j item)) →
  Forall2 item_block ks Bs →
  ∃ FBs, imap F (mjoin Bs) = mjoin FBs ∧ Forall2 block_of ks FBs.
Proof.
  intros HF HBs. revert F HF.
  induction HBs as [|k B ks Bs HB _ IH]; intros F HF.
  { by exists []. }
  destruct (IH (λ j, F (length B + j)%nat)) as (FBs & Himap & HFBs); [intros; apply HF|].
  exists (imap F B :: FBs). change (mjoin (?x :: ?l)) with (x ++ mjoin l).
  rewrite imap_app, Himap.
  split; [done|]. constructor; [|done].
  apply Forall_forall. intros fut Hin.
  apply elem_of_lookup_imap_1 in Hin as (j & item & -> & Hitem).
  destruct (HF j item) as [Hname Hok]. split; [|done].
  unfold fut_named. rewrite Hname.
  unfold item_block in HB. rewrite Forall_forall in HB. apply HB.
  by eapply list_elem_of_lookup_2.
Qed.

(** X12. With distinct document names, the entries of the combined export
    are the results of the [process_page] calls that returned, in the
    order in which the pages were submitted: the documents in upload
    order, the pages of a document in page order. *)
Theorem combined_export_in_submission_order w ss uploads :
  guard ss uploads = true →
  NoDup (name <$> store_uploads ss uploads) →
  result_entries (key_order w (store_uploads ss uploads)) (script str w ss uploads).1
  = omap (λ fut,
      match fut_result fut with
      | Returns t => Some (pt_file_name t, page_result t)
      | Raises _ => None
      end) (run_futures str w ss uploads).
Proof.
  intros Hg Hnd.
  destruct (key_order_keys w ss uploads Hg) as [Hkeys_nd Hkeys].
  assert (Hentries :
    result_entries (key_order w (store_uploads ss uploads)) (script str w ss uploads).1
    = key_order w (store_uploads ss uploads)
        ≫= (λ n, (λ r, (n, r)) <$> collected_for n (run_futures str w ss uploads))).
  { unfold result_entries. apply bind_ext_in. intros n Hn.
    apply Hkeys in Hn as [results Hres]. rewrite Hres. simpl.
    by rewrite (results_in_submission_order w ss uploads n results Hg Hnd Hres). }
  rewrite Hentries.
  destruct (file_blocks w 0 (store_uploads ss uploads) [] Hnd)
    as (ks & Bs & Hks & Hitems & HBs).
  { intros f _ Hin. by apply elem_of_nil in Hin. }
  fold (key_order w (store_uploads ss uploads)) in Hks. simpl in Hks.
  destruct (future_blocks (submit str w) ks Bs) as (FBs & Hfuts & HFBs); [|done|].
  { intros j item. pose proof (submit_spec str w j item). tauto. }
  assert (Hrun : run_futures str w ss uploads = mjoin FBs).
  { unfold run_futures, submit_all, gather. rewrite gather_from_items.
    change (all_pages gather_start) with (@nil WorkItem).
    by rewrite app_nil_l, Hitems. }
  rewrite Hrun, Hks. rewrite Hks in Hkeys_nd.
  by apply grouped_entries.
Qed.

(** ** When every page encodes *)

Lemma run_total_results w ss uploads :
  guard ss uploads = true →
  total_results (file_results (script str w ss uploads).1)
  = count_returned (run_futures str w ss uploads).
Proof.
  intros Hg.
  pose proof (gather_ok str w (store_uploads ss uploads)) as Hok.
  destruct (dispatch_counts str w _ Hok) as (C1 & _).
  destruct (script_state str w ss uploads Hg) as (-> & _).
  case_decide as Hnil.
  - destruct Hok as (_ & Hempty & _). rewrite (total_results_nil _ Hempty).
    unfold run_futures. by rewrite Hnil.
  - rewrite total_results_fmap; [done|]. apply sort_by_length.
Qed.

(** X13. When every submitted page encodes as PNG, every work item ends as
    one [PageResult] and no page-level error is shown, whatever the
    backend answers and whether or not its calls fail. *)
Theorem every_encoded_page_has_a_result w ss uploads :
  guard ss uploads = true →
  (∀ j file_name page page_idx,
     all_pages (gather str w (store_uploads ss uploads)) !! j
     = Some (file_name, page, page_idx) →
     returned (save_png (task w j) page) = true) →
  total_results (file_results (script str w ss uploads).1)
  = length (all_pages (gather str w (store_uploads ss uploads)))
  ∧ count_errors (c_notices (dispatch str w (gather str w (store_uploads ss uploads))))
    = 0%nat.
Proof.
  intros Hg Henc.
  set (g := gather str w (store_uploads ss uploads)) in *.
  assert (Hraised : count_raised (run_futures str w ss uploads) = 0%nat).
  { unfold count_raised. apply length_zero_iff_nil, filter_none.
    apply Forall_forall. intros fut Hin.
    apply elem_of_lookup_imap_1 in Hin as (j & [[file_name page] page_idx] & -> & Hitem).
    destruct (submit_spec str w j (file_name, page, page_idx)) as (_ & _ & _ & Hret).
    rewrite Hret. simpl. rewrite (Henc j file_name page page_idx Hitem). simpl. tauto. }
  pose proof (count_split (run_futures str w ss uploads)) as Hsplit.
  assert (Hlen : length (run_futures str w ss uploads) = length (all_pages g)).
  { unfold run_futures, submit_all. by rewrite length_imap. }
  destruct (dispatch_counts str w g (gather_ok str w _)) as (_ & _ & Herr).
  change (submit_all str w (all_pages g)) with (run_futures str w ss uploads) in Herr.
  rewrite (run_total_results w ss uploads Hg). split; lia.
Qed.

(** ** Reading the answer *)

(** X14. The extraction returns a value exactly when the body parses and has
    a dict with a non-empty list [choices] whose first element is a dict
    with a dict [message] that has the key [content]; the value is that
    content. *)
Theorem first_choice_content_exact (r : Response) (v : json) :
  first_choice_content r = Returns v
  ↔ ∃ body, json_body r = Returns body ∧ is_first_choice_content body v.
Proof.
  split.
  - unfold first_choice_content. intros Hv.
    destruct (json_body r) as [body|] eqn:Hb; [|done]. exists body. split; [done|].
    simpl in Hv. destruct body as [| | | | |l|items]; try done. simpl in Hv.
    destruct (dict_get "choices" items) as [choices|] eqn:Hc; [|done]. simpl in Hv.
    destruct choices as [| | | |s|l|cs]; try done; simpl in Hv.
    + by destruct (String.get 0 s).
    + destruct l as [|choice others]; [done|]. simpl in Hv.
      destruct choice as [| | | | |l'|citems]; try done. simpl in Hv.
      destruct (dict_get "message" citems) as [message|] eqn:Hm; [|done]. simpl in Hv.
      destruct message as [| | | | |l'|mitems]; try done. simpl in Hv.
      destruct (dict_get "content" mitems) as [content|] eqn:Hcontent; [|done].
      injection Hv as ->. by exists items, citems, others, mitems.
  - intros (body & Hb & Hv). by apply (first_choice_content_spec r body v).
Qed.

(** X15. A 200 answer without the expected fields does not raise out of
    [process_page]; the page gets the text of the exception of the first
    subscript that fails: the [KeyError] of the key [choices] for a dict
    without it, the [IndexError] of the empty list for an empty list of
    choices, and for a body that is a list or null the [TypeError] of
    that body subscripted with the key [choices], whose message names
    the type of the body. *)
Theorem unexpected_body_becomes_text (tw : TaskWorld) file_name (page : Page)
    page_idx img_bytes r :
  save_png tw page = Returns img_bytes →
  post tw (page_request (b64encode img_bytes)) = Returns r →
  status_code r = 200%N →
  ∃ t,
    (process_page str tw file_name page page_idx).2 = Returns t
    ∧ (∀ kvs, json_body r = Returns (JDict kvs) →
                dict_get "choices" kvs = None →
                pt_text t = JStr ("Exception: " +:+ str (KeyError (JStr "choices"))))
    ∧ (∀ kvs, json_body r = Returns (JDict kvs) →
                dict_get "choices" kvs = Some (JList []) →
                pt_text t = JStr ("Exception: " +:+ str (IndexError (JList []))))
    ∧ (∀ l, json_body r = Returns (JList l) →
            pt_text t
            = JStr ("Exception: " +:+ str (TypeError (JList l) (JStr "choices"))))
    ∧ (json_body r = Returns JNull →
       pt_text t = JStr ("Exception: " +:+ str (TypeError JNull (JStr "choices")))).
Proof.
  intros Hsave Hpost H200. unfold process_page. rewrite Hsave.
  eexists. split; [done|]. simpl. unfold request_text. rewrite Hpost. simpl.
  rewrite decide_True by done. unfold first_choice_content.
  split_and!.
  - intros kvs -> Hc. simpl. by rewrite Hc.
  - intros kvs -> Hc. simpl. by rewrite Hc.
  - by intros l ->.
  - by intros ->.
Qed.

End Further.

(** ** Free memory and the number of workers *)

Lemma telemetry_estimate nv free :
  telemetry nv free →
  MAX_WORKERS nv = Z.min 4 (Z.max 1 (Z.of_N free / (3 * 1024 ^ 3))).
Proof.
  intros (Hi & Hs & count & handle & Hc & Hpos & Hh & Hm).
  unfold MAX_WORKERS, estimate_workers. rewrite Hi, Hc.
  cbn [mbind outcome_bind]. rewrite decide_True by done. rewrite Hh.
  cbn [mbind outcome_bind]. rewrite Hm. cbn [mbind outcome_bind mret outcome_ret].
  rewrite Hs. cbn [mbind outcome_bind mret outcome_ret].
  by rewrite floor_free_mem.
Qed.

(** X16. With working telemetry the number of workers grows with the free
    memory in steps of 3 GiB: one worker below 6 GiB, two from 6 GiB,
    three from 9 GiB, four from 12 GiB on. *)
Theorem max_workers_steps nv free :
  telemetry nv free →
  (MAX_WORKERS nv = 1 ↔ (free < 6 * 1024 ^ 3)%N)
  ∧ (MAX_WORKERS nv = 2 ↔ (6 * 1024 ^ 3 ≤ free < 9 * 1024 ^ 3)%N)
  ∧ (MAX_WORKERS nv = 3 ↔ (9 * 1024 ^ 3 ≤ free < 12 * 1024 ^ 3)%N)
  ∧ (MAX_WORKERS nv = 4 ↔ (12 * 1024 ^ 3 ≤ free)%N).
Proof.
  intros Ht. rewrite (telemetry_estimate nv free Ht).
  change (3 * 1024 ^ 3) with 3221225472.
  change (6 * 1024 ^ 3)%N with 6442450944%N.
  change (9 * 1024 ^ 3)%N with 9663676416%N.
  change (12 * 1024 ^ 3)%N with 12884901888%N.
  pose proof (Z.div_mod (Z.of_N free) 3221225472 ltac:(lia)) as Hdiv.
  pose proof (Z.mod_pos_bound (Z.of_N free) 3221225472 ltac:(lia)) as Hmod.
  set (q := Z.of_N free / 3221225472) in *.
  set (m := Z.of_N free `mod` 3221225472) in *.
  split_and!; lia.
Qed.

(** X17. More free memory never gives fewer workers. *)
Theorem max_workers_monotone nv1 nv2 free1 free2 :
  telemetry nv1 free1 → telemetry nv2 free2 → (free1 ≤ free2)%N →
  (MAX_WORKERS nv1 ≤ MAX_WORKERS nv2)%Z.
Proof.
  intros H1 H2 Hle.
  rewrite (telemetry_estimate nv1 free1 H1), (telemetry_estimate nv2 free2 H2).
  assert (Z.of_N free1 / (3 * 1024 ^ 3) ≤ Z.of_N free2 / (3 * 1024 ^ 3))%Z.
  { apply Z.div_le_mono; [done|lia]. }
  lia.
Qed.

(** ** The base64 text *)

(** X18. The base64 text of [n] bytes has [4 * ceil(n / 3)] characters. *)
Theorem length_b64encode (data : bytes) :
  String.length (b64encode data) = (4 * ((length data + 2) / 3))%nat.
Proof.
  remember (length data) as n eqn:Hn. revert data Hn.
  induction n as [n IH] using lt_wf_ind. intros data ->.
  destruct data as [|a [|b [|c rest]]]; [done..|].
  cbn [b64encode String.length length].
  rewrite (IH (length rest)) by (simpl; lia || done).
  replace (S (S (S (length rest))) + 2)%nat with ((length rest + 2) + 1 * 3)%nat by lia.
  rewrite Nat.div_add by done. lia.
Qed.

(** * The properties on sample runs *)

Example b64encode_three_bytes : b64encode ["M"%byte; "a"%byte; "n"%byte] = "TWFu".
Proof. reflexivity. Qed.

Example b64encode_two_bytes : b64encode ["M"%byte; "a"%byte] = "TWE=".
Proof. reflexivity. Qed.

Example b64encode_one_byte : b64encode ["M"%byte] = "TQ==".
Proof. reflexivity. Qed.

(** The 500 answer for page 2 of a three page document is kept as text,
    in page order, whatever the completion order. *)
Example error_text_in_page_position :
  (λ r, (pr_page r, pr_text r)) <$>
    default [] (file_results (script str_sample W fresh mixed_upload).1 !! "good.pdf")
  = [(1%nat, JStr "hello"); (2%nat, JStr "Error: 500 - body"); (3%nat, JStr "hello")].
Proof. reflexivity. Qed.

(** A request that times out gives the exception text and the time spent. *)
Example timeout_text :
  (λ t, (pt_text t, pt_page_time t)) <$>
    match (process_page str_sample slow_task "a.pdf" good_page 1).2 with
    | Returns t => Some t
    | Raises _ => None
    end
  = Some (JStr "Exception: Read timed out. (read timeout=60)", 60).
Proof. reflexivity. Qed.


Lemma mixed_names_distinct :
  NoDup (name <$> store_uploads fresh mixed_upload).
Proof. apply (bool_decide_unpack _). vm_compute. exact I. Qed.

(** ** C1 *)

Lemma results_and_errors_witness :
  guard fresh faulty_upload = true
  ∧ (total_results (file_results (script str_sample W fresh faulty_upload).1)
     + count_errors (c_notices (dispatch str_sample W
         (gather str_sample W (store_uploads fresh faulty_upload))))
     = length (all_pages (gather str_sample W (store_uploads fresh faulty_upload))))%nat.
Proof.
  split; [reflexivity|].
  exact (proj2 (proj2 (results_and_errors_count_work_items str_sample W fresh
                         faulty_upload eq_refl))).
Defined.

(** C1, as stated, fails. A document of two pages gives two work items;
    encoding the first page raises inside [process_page], the collection
    loop shows an error notice for it and appends nothing, and the run
    ends with one [PageResult] for two work items. *)
Lemma raised_page_has_no_result :
  length (all_pages (gather str_sample W (store_uploads fresh faulty_upload))) = 2%nat
  ∧ total_results (file_results (script str_sample W fresh faulty_upload).1) = 1%nat
  ∧ c_notices (dispatch str_sample W
      (gather str_sample W (store_uploads fresh faulty_upload)))
    = [Error "Failed to process a.pdf - Page 1: cannot write mode F as PNG";
       ProgressBar 1 2; ProgressText "Processed 1/2 pages"]
  ∧ total_results (file_results (script str_sample W fresh faulty_upload).1)
    ≠ length (all_pages (gather str_sample W (store_uploads fresh faulty_upload))).
Proof. split_and!; [reflexivity..|]. vm_compute. discriminate. Qed.

(** ** C2 *)



(** ** C3 *)

Lemma process_page_text_witness :
  save_png (sample_task 200) good_page = Returns ["P"%byte; "N"%byte; "G"%byte]
  ∧ ∃ t,
      (process_page str_sample (sample_task 200) "a.pdf" good_page 1).2 = Returns t
      ∧ pt_text t = JStr "hello"
      ∧ pt_page_time t = 7.
Proof.
  split; [reflexivity|].
  destruct (process_page_text str_sample (sample_task 200) "a.pdf" good_page 1
              ["P"%byte; "N"%byte; "G"%byte] eq_refl)
    as (t & Ht & _ & _ & Htime & Htext).
  exists t. split_and!; [exact Ht| |exact Htime].
  destruct Htext as (H200 & _).
  apply (H200 eq_refl (chat_completion "hello") (JStr "hello") eq_refl).
  unfold is_first_choice_content, chat_completion.
  eexists _, _, _, _. split_and!; reflexivity.
Defined.

(** C3, as stated, fails. The answer has status 201, a success status,
    and a body whose first choice has the content field "hello"; the
    text of the page is the error text, not the content field. *)
Lemma status_201_gives_error_text :
  post (sample_task 201) (page_request (b64encode ["P"%byte; "N"%byte; "G"%byte]))
  = Returns {| status_code := 201; text := "body";
               json_body := Returns (chat_completion "hello") |}
  ∧ http_success 201 = true
  ∧ is_first_choice_content (chat_completion "hello") (JStr "hello")
  ∧ (process_page str_sample (sample_task 201) "a.pdf" good_page 1).2
    = Returns {| pt_file_name := "a.pdf"; pt_page_idx := 1;
                 pt_text := JStr "Error: 201 - body"; pt_page_time := 7;
                 pt_img_b64 := "UE5H"; pt_page := good_page |}
  ∧ JStr "Error: 201 - body" ≠ JStr "hello".
Proof.
  split_and!; [reflexivity..| |reflexivity|discriminate].
  unfold is_first_choice_content, chat_completion.
  eexists _, _, _, _. split_and!; reflexivity.
Qed.

(** ** C4 *)

Lemma max_workers_estimate_witness :
  MAX_WORKERS (gpu (10 * 1024 ^ 3)) = free_memory_estimate (10 * 1024 ^ 3)
  ∧ free_memory_estimate (10 * 1024 ^ 3) = 3
  ∧ MAX_WORKERS no_gpu = 2.
Proof.
  destruct (max_workers_estimate (gpu (10 * 1024 ^ 3))) as (_ & Hest & _).
  destruct (max_workers_estimate no_gpu) as (_ & _ & _ & _ & Hinit & _).
  split_and!.
  - apply (Hest 1%N 0%N); reflexivity.
  - reflexivity.
  - apply (Hinit NVMLError). reflexivity.
Defined.

(** ** C5 *)

(** C5. After the run on a.pdf has completed, the upload widget holds
    b.pdf instead. The run on it shows nothing and leaves the session
    state as it is: the guard is false because the processed flag is set,
    the comparison of the names sits behind the guard, and nothing sets
    the flag back. The results stay those of a.pdf. *)
Theorem new_upload_after_run_is_ignored :
  let ss1 := (script str_sample W fresh first_upload).1 in
  processed ss1 = true
  ∧ name <$> uploaded_files ss1 = ["a.pdf"]
  ∧ uf_name <$> second_upload ≠ name <$> uploaded_files ss1
  ∧ guard ss1 second_upload = false
  ∧ script str_sample W_later ss1 second_upload = (ss1, [])
  ∧ result_pages ss1 "a.pdf" = Some [1%nat]
  ∧ file_results ss1 !! "b.pdf" = None.
Proof.
  intros ss1.
  split_and!; [reflexivity|reflexivity|vm_compute; discriminate|reflexivity|
               |reflexivity|reflexivity].
  by apply script_processed.
Qed.

(** ** C6 *)

Lemma rerun_after_dispatch_witness :
  script str_sample W_later (script str_sample W fresh first_upload).1 first_upload
  = ((script str_sample W fresh first_upload).1, []).
Proof.
  apply (rerun_after_dispatch_is_noop str_sample W W_later fresh first_upload first_upload).
  - reflexivity.
  - vm_compute. discriminate.
  - reflexivity.
Defined.

(** C6, as stated, fails. The only document does not parse, so the first
    run dispatches no page and leaves the processed flag unset; the second
    run with the same upload passes the guard, rasterises the document
    again and shows the failure again. *)
Lemma rerun_after_failed_rasterization_reprocesses :
  let ss1 := (script str_sample W fresh bad_upload).1 in
  processed ss1 = false
  ∧ guard ss1 bad_upload = true
  ∧ (script str_sample W_later ss1 bad_upload).2
    = [InfoBox "Processing PDFs in parallel...";
       Error "Failed to process bad.pdf: Unable to get page count.";
       ProgressText "Processing complete!"]
  ∧ script str_sample W_later ss1 bad_upload ≠ (ss1, []).
Proof.
  intros ss1. split_and!; [reflexivity..|].
  intros Heq. apply (f_equal snd) in Heq. vm_compute in Heq. discriminate.
Qed.

(** A document without pages is in the same case, and the second run
    also replaces its timing. *)
Example rerun_restamps_document_without_pages :
  let ss1 := (script str_sample W fresh empty_upload).1 in
  let ss2 := (script str_sample W_later ss1 empty_upload).1 in
  file_times ss1 !! "empty.pdf" = Some 100 ∧ file_times ss2 !! "empty.pdf" = Some 200.
Proof. split; reflexivity. Qed.

(** ** C7 *)



(** ** C8 *)

Lemma process_page_request_witness :
  (process_page str_sample (sample_task 200) "a.pdf" good_page 1).1
  = [{| req_method := POST;
        req_url := "http://qwen-vlm:8000/v1/chat/completions";
        req_json := envelope "Qwen/Qwen2.5-VL-3B-Instruct-AWQ"
                      "Please extract all text from this image." "UE5H";
        req_headers := [("Content-Type", "application/json")];
        req_timeout := 60 |}].
Proof.
  exact (process_page_sends_one_request str_sample (sample_task 200) "a.pdf"
           good_page 1).
Defined.

(** A page whose PNG encoding raises: the call raises with nothing sent. *)
Lemma unencodable_page_sends_no_request :
  (process_page str_sample (sample_task 200) "a.pdf" bad_page 1).1 = []
  ∧ returned (process_page str_sample (sample_task 200) "a.pdf" bad_page 1).2 = false.
Proof. split; reflexivity. Qed.

(** ** C10 *)



(** The one list of the two documents, in page order. *)
Example duplicate_names_pages :
  result_pages (script str_sample W fresh same_name_upload).1 "a.pdf"
  = Some [1; 1; 2; 2; 3]%nat.
Proof. reflexivity. Qed.

(** * The further properties on sample runs *)

Lemma two_names_distinct : NoDup (name <$> store_uploads fresh two_upload).
Proof. apply (bool_decide_unpack _). vm_compute. exact I. Qed.

Lemma gpu_telemetry (free : N) : telemetry (gpu free) free.
Proof. split_and!; [done..|]. exists 1%N, 0%N. by split_and!. Qed.

Lemma processed_iff_witness :
  processed (script str_sample W fresh first_upload).1 = true.
Proof.
  apply (proj2 (processed_iff_some_page str_sample W fresh first_upload eq_refl)).
  exists 0%nat, {| name := "a.pdf"; data := ["1"%byte] |}, [good_page].
  split_and!; [reflexivity..|discriminate].
Defined.

Lemma dicts_share_keys_witness :
  "good.pdf" ∈ dom (file_results (script str_sample W fresh mixed_upload).1)
  ∧ dom (file_results (script str_sample W fresh mixed_upload).1)
    = dom (debug_info (script str_sample W fresh mixed_upload).1).
Proof.
  destruct (dicts_share_keys str_sample W fresh mixed_upload eq_refl) as (D1 & D2 & Hn).
  split; [|by rewrite D1].
  apply Hn. exists 1%nat, {| name := "good.pdf"; data := ["3"%byte] |}.
  split_and!; reflexivity.
Defined.

Lemma errors_are_failures_witness :
  count_errors (script str_sample W fresh mixed_faulty_upload).2 = 2%nat.
Proof.
  rewrite (errors_are_failures str_sample W fresh mixed_faulty_upload eq_refl).
  reflexivity.
Defined.

Lemma progress_counts_up_witness :
  progress_values (script str_sample W fresh mixed_upload).2 = [(1, 3); (2, 3); (3, 3)]%nat.
Proof.
  destruct (progress_counts_up str_sample W fresh mixed_upload eq_refl) as [Hp _].
  rewrite Hp. reflexivity.
Defined.

Lemma results_come_from_work_items_witness :
  match file_results (script str_sample W fresh mixed_upload).1 !! "good.pdf" with
  | Some (r :: _) =>
      ∃ j page t,
        all_pages (gather str_sample W (store_uploads fresh mixed_upload)) !! j
        = Some ("good.pdf", page, pr_page r)
        ∧ (process_page str_sample (task W j) "good.pdf" page (pr_page r)).2 = Returns t
        ∧ r = page_result t
        ∧ pr_image r = page
  | _ => False
  end.
Proof.
  destruct (file_results (script str_sample W fresh mixed_upload).1 !! "good.pdf")
    as [[|r rest]|] eqn:Hres.
  - vm_compute in Hres. discriminate.
  - apply (results_come_from_work_items str_sample W fresh mixed_upload "good.pdf"
             (r :: rest) r eq_refl Hres). left.
  - vm_compute in Hres. discriminate.
Defined.

Lemma state_independent_of_completion_witness :
  (script str_sample (with_completion W [0; 0; 0]%nat) fresh mixed_upload).1
  = (script str_sample W fresh mixed_upload).1.
Proof.
  apply (state_independent_of_completion str_sample W fresh mixed_upload [0; 0; 0]%nat).
  - reflexivity.
  - exact mixed_names_distinct.
Defined.

Lemma same_names_keep_stored_bytes_witness :
  script str_sample W_later (script str_sample W fresh bad_upload).1 corrected_upload
  = script str_sample W_later (script str_sample W fresh bad_upload).1 bad_upload
  ∧ (script str_sample W_later (script str_sample W fresh bad_upload).1
       corrected_upload).2
    = [InfoBox "Processing PDFs in parallel...";
       Error "Failed to process bad.pdf: Unable to get page count.";
       ProgressText "Processing complete!"].
Proof.
  destruct (same_names_keep_stored_bytes str_sample W_later
              (script str_sample W fresh bad_upload).1 bad_upload corrected_upload
              eq_refl eq_refl) as [Hsame _].
  split; [exact Hsame|]. rewrite Hsame. reflexivity.
Defined.

Lemma unexpected_body_witness :
  ∃ t,
    (process_page str_sample
       (odd_task (Returns (JDict [("error", JStr "overloaded")]))) "a.pdf" good_page 1).2
    = Returns t
    ∧ pt_text t = JStr "Exception: 'choices'".
Proof.
  destruct (unexpected_body_becomes_text str_sample
              (odd_task (Returns (JDict [("error", JStr "overloaded")])))
              "a.pdf" good_page 1 ["P"%byte; "N"%byte; "G"%byte]
              {| status_code := 200; text := "body";
                 json_body := Returns (JDict [("error", JStr "overloaded")]) |}
              eq_refl eq_refl eq_refl) as (t & Ht & Hkey & _).
  exists t. split; [exact Ht|].
  exact (Hkey [("error", JStr "overloaded")] eq_refl eq_refl).
Defined.

(** The text tells a null body from a list body. *)
Example body_type_shows_in_text :
  (pt_text <$>
     match (process_page str_sample (odd_task (Returns JNull)) "a.pdf" good_page 1).2 with
     | Returns t => Some t
     | Raises _ => None
     end)
  = Some (JStr "Exception: 'NoneType' object is not subscriptable")
  ∧ (pt_text <$>
       match (process_page str_sample (odd_task (Returns (JList []))) "a.pdf"
                good_page 1).2 with
       | Returns t => Some t
       | Raises _ => None
       end)
    = Some (JStr "Exception: list indices must be integers or slices, not str").
Proof. split; reflexivity. Qed.

Lemma max_workers_steps_witness : MAX_WORKERS (gpu (7 * GiB)) = 2.
Proof.
  destruct (max_workers_steps (gpu (7 * GiB)) (7 * GiB) (gpu_telemetry _))
    as (_ & H2 & _).
  apply H2. vm_compute. split; [discriminate|reflexivity].
Defined.

Lemma max_workers_monotone_witness :
  (MAX_WORKERS (gpu (4 * GiB)) ≤ MAX_WORKERS (gpu (16 * GiB)))%Z.
Proof.
  apply (max_workers_monotone (gpu (4 * GiB)) (gpu (16 * GiB)) (4 * GiB) (16 * GiB)
           (gpu_telemetry _) (gpu_telemetry _)).
  vm_compute. discriminate.
Defined.

Lemma sidebar_totals_witness :
  sidebar_total_pages (script str_sample W fresh mixed_upload).1 = 3%nat
  ∧ size (file_results (script str_sample W fresh mixed_upload).1) = 1%nat.
Proof.
  destruct (sidebar_totals str_sample W fresh mixed_upload eq_refl mixed_names_distinct)
    as [Hpages Hfiles].
  split; [rewrite Hpages; reflexivity|].
  change (count_failed_files W (store_uploads fresh mixed_upload)) with 1%nat in Hfiles.
  change (length (store_uploads fresh mixed_upload)) with 2%nat in Hfiles.
  lia.
Defined.

Lemma combined_export_counts_witness :
  length (all_results repr_sample (key_order W (store_uploads fresh mixed_upload))
            (script str_sample W fresh mixed_upload).1) = 3%nat.
Proof.
  destruct (combined_export_counts str_sample repr_sample W fresh mixed_upload eq_refl)
    as [Hlen _].
  rewrite Hlen. reflexivity.
Defined.

Lemma combined_export_order_witness :
  (λ e, (e.1, pr_page e.2)) <$>
    result_entries (key_order W (store_uploads fresh two_upload))
      (script str_sample W fresh two_upload).1
  = [("b.pdf", 1%nat); ("b.pdf", 2%nat); ("a.pdf", 1%nat)].
Proof.
  rewrite (combined_export_in_submission_order str_sample W fresh two_upload
             eq_refl two_names_distinct).
  reflexivity.
Defined.

Lemma every_encoded_page_witness :
  total_results (file_results (script str_sample W fresh mixed_upload).1) = 3%nat.
Proof.
  destruct (every_encoded_page_has_a_result str_sample W fresh mixed_upload eq_refl)
    as [Htotal _].
  - intros j file_name page page_idx Hitem.
    destruct j as [|[|[|j]]]; vm_compute in Hitem; [..|discriminate];
      injection Hitem as _ <- _; reflexivity.
  - rewrite Htotal. reflexivity.
Defined.

(** The text of the combined export of the two documents. *)
Example combined_export_text :
  all_results repr_sample (key_order W (store_uploads fresh two_upload))
    (script str_sample W fresh two_upload).1
  = ["File: b.pdf - Page 1" +:+ newline +:+ "hello";
     "File: b.pdf - Page 2" +:+ newline +:+ "Error: 500 - body";
     "File: a.pdf - Page 1" +:+ newline +:+ "hello"].
Proof. reflexivity. Qed.

Example sidebar_summary_text :
  sidebar_summary (script str_sample W fresh mixed_upload).1
  = ["Total files: 1"; "Total pages: 3"].
Proof. reflexivity. Qed.
